(** * RSI signal engine: a shallow embedding of [strategy.js]

    The development follows the two variants of the strategy module that the
    repository carries:

    - [src/strategy.js], the variant with averaging-down entries
      (module [Strategy] below);
    - [src/unnamed/part_000], the earlier variant with a single buy price
      (module [Variant] below).

    Both share the indicator calculator ([calculateRSI]) and the reference
    asset tracker ([fetchBTCPrice], [calculateBTCChanges]).

    Modelling conventions.
    - A JavaScript number is an exact rational ([Q]); rounding of IEEE
      doubles is outside the model.  [null] and [undefined] are [None] of an
      option, with the coercions the comparisons of the source apply to them
      written out ([Js.nullToNumber], [Js.ltU], ...).
    - A [moment()] reading is an integer number of milliseconds ([Z]).
    - The objects used as per-symbol maps and never enumerated are finite
      maps ([gmap string _]); [sellPrices], which [checkTargetAchieved]
      enumerates with [for ... in], is an insertion-ordered association list.
    - Arrays are mutable objects: they live in a store ([heap]) and are named
      by their location, so that the two references the source keeps to one
      entry-price array ([entryPrices[symbol]] and the [entryPrices] field of
      the record in [sellPrices]) see each other's updates.
    - Network and file effects are inputs (what a fetch or a send returned)
      and outputs (the list of [Event]s a call produced). *)

From Stdlib Require Import ZArith QArith Qabs Qround Lia List Sorted.
From stdpp Require Import base gmap strings list.
Import ListNotations.

Open Scope Q_scope.

(** ** JavaScript numbers and coercions *)

Module Js.

(** [x < y], [x > y], [x >= y] on numbers. *)
Definition lt (x y : Q) : bool := negb (Qle_bool y x).
Definition gt (x y : Q) : bool := lt y x.
Definition ge (x y : Q) : bool := Qle_bool y x.

(** Relational operators coerce [null] to [+0]. *)
Definition nullToNumber (v : option Q) : Q :=
  match v with
  | Some q => q
  | None => 0
  end.

(** Relational operators coerce [undefined] to [NaN], and every comparison
    with [NaN] is false. *)
Definition ltU (x y : option Q) : bool :=
  match x, y with
  | Some a, Some b => lt a b
  | _, _ => false
  end.

Definition geU (x y : option Q) : bool :=
  match x, y with
  | Some a, Some b => ge a b
  | _, _ => false
  end.

(** Truthiness of a number-or-null: [null] and [0] are falsy. *)
Definition truthy (v : option Q) : bool :=
  match v with
  | Some q => negb (Qeq_bool q 0)
  | None => false
  end.

(** [x.toFixed(digits)] read back as a number: the nearest multiple of
    [10^-digits], ties away from zero. *)
Definition toFixed (digits : nat) (x : Q) : Q :=
  let scale := (10 ^ Z.of_nat digits)%Z in
  let n := Qfloor (Qabs x * inject_Z scale + (1 # 2)) in
  Qred (inject_Z (if Qle_bool 0 x then n else (- n)%Z) / inject_Z scale).

(** Arithmetic on number-or-undefined operands ([NaN] propagates). *)
Definition lift2 (f : Q -> Q -> Q) (x y : option Q) : option Q :=
  match x, y with
  | Some a, Some b => Some (f a b)
  | _, _ => None
  end.

(** [a.diff(b, 'minutes')] of moment: the difference in milliseconds
    divided by 60000, truncated toward zero. *)
Definition diffMinutes (a b : Z) : Z := Z.quot (a - b) 60000.

End Js.

(** ** IndicatorCalculator: [calculateRSI] *)

Definition RSI_PERIOD : nat := 14.

(** The body of [for (let i = 1; i < period; i++)]: [n] iterations are left,
    the loop variable is [i].  The length guard in [calculateRSI] keeps every
    read [prices[i]], [prices[i - 1]] inside the array. *)
Fixpoint rsi_loop (prices : list Q) (i n : nat) (gains losses : Q) : Q * Q :=
  match n with
  | O => (gains, losses)
  | S n' =>
      let change := nth i prices 0 - nth (i - 1) prices 0 in
      if Js.gt change 0
      then rsi_loop prices (S i) n' (gains + change) losses
      else rsi_loop prices (S i) n' gains (losses - change)
  end.

Definition calculateRSI_period (prices : list Q) (period : nat) : option Q :=
  if (length prices <? period)%nat then None
  else
    let '(gains, losses) := rsi_loop prices 1 (period - 1) 0 0 in
    let avgGain := gains / inject_Z (Z.of_nat period) in
    let avgLoss := losses / inject_Z (Z.of_nat period) in
    if Qeq_bool avgLoss 0 then Some 100
    else
      let rs := avgGain / avgLoss in
      Some (100 - 100 / (1 + rs)).

(** Every call site leaves [period] at its default. *)
Definition calculateRSI (prices : list Q) : option Q :=
  calculateRSI_period prices RSI_PERIOD.

(** *** The score as the specification words it

    Consecutive deltas of a price sequence, the gain and the loss carried by
    one delta, and the score computed from the first [window] deltas, each
    sum averaged over 14. *)

Fixpoint deltas (prices : list Q) : list Q :=
  match prices with
  | a :: (b :: _) as rest => (b - a) :: deltas rest
  | _ => []
  end.

Definition gainOf (d : Q) : Q := if Js.gt d 0 then d else 0.
Definition lossOf (d : Q) : Q := if Js.gt d 0 then 0 else - d.

Definition Qsum (l : list Q) : Q := fold_right Qplus 0 l.

Definition scoreOverDeltas (window : nat) (prices : list Q) : Q :=
  let ds := firstn window (deltas prices) in
  let avgGain := Qsum (map gainOf ds) / 14 in
  let avgLoss := Qsum (map lossOf ds) / 14 in
  if Qeq_bool avgLoss 0 then 100 else 100 - 100 / (1 + avgGain / avgLoss).

(** ** ReferenceAssetTracker: [fetchBTCPrice] and [calculateBTCChanges] *)

Record Sample := { price : Q; timestamp : Z }.

(** The module-level [lastBTCPrice] and [btcPriceHistory] (oldest sample
    first: [push] appends, [shift] removes the head). *)
Record BtcState := {
  lastBTCPrice : option Q;
  btcPriceHistory : list Sample
}.

(** The three [moment()] readings of one [calculateBTCChanges] call: the
    time stamped on the pushed sample, the time the eviction cutoff is taken
    from, and the time the 30-minute cutoff is taken from. *)
Record BtcClock := { tPush : Z; tTrim : Z; tFind : Z }.

Record BtcData := {
  btcPrice : option Q;
  change : option Q;
  change30m : option Q
}.

Definition minutes (n : Z) : Z := (n * 60000)%Z.

(** [m.isBefore(cutoff)] and [m.isSameOrBefore(cutoff)]. *)
Definition isBefore (t cutoff : Z) : bool := (t <? cutoff)%Z.
Definition isSameOrBefore (t cutoff : Z) : bool := (t <=? cutoff)%Z.

(** [while (h.length > 0 && h[0].timestamp.isBefore(cutoff)) h.shift()]. *)
Fixpoint evictBefore (cutoff : Z) (history : list Sample) : list Sample :=
  match history with
  | [] => []
  | entry :: rest =>
      if isBefore (timestamp entry) cutoff then evictBefore cutoff rest
      else history
  end.

(** [response] is the parsed ticker price, [None] when the request threw
    (the [catch] returns [null] and nothing was pushed). *)
Definition fetchBTCPrice (response : option Q) (clk : BtcClock) (b : BtcState)
  : option Q * BtcState :=
  match response with
  | None => (None, b)
  | Some p =>
      let pushed := btcPriceHistory b ++ [{| price := p; timestamp := tPush clk |}] in
      let thirtyOneMinutesAgo := (tTrim clk - minutes 31)%Z in
      (Some p, {| lastBTCPrice := lastBTCPrice b;
                  btcPriceHistory := evictBefore thirtyOneMinutesAgo pushed |})
  end.

(** [((current - old) / old * 100).toFixed(2)]. *)
Definition percentChange (current old : Q) : Q :=
  Js.toFixed 2 ((current - old) / old * 100).

(** Age of a sample at time [now], and buffers kept oldest sample first. *)
Definition ageAt (now : Z) (s : Sample) : Z := (now - timestamp s)%Z.

Definition oldestFirst (history : list Sample) : Prop :=
  StronglySorted (fun a b => (timestamp a <= timestamp b)%Z) history.

(** [btcPriceHistory.find(entry => entry.timestamp.isSameOrBefore(cutoff))]
    with [cutoff = moment().subtract(30, 'minutes')]: the first sample in
    array order that satisfies the test. *)
Definition findThirtyMinutesAgo (now : Z) (history : list Sample) : option Sample :=
  List.find (fun entry => isSameOrBefore (timestamp entry) (now - minutes 30)%Z) history.

Definition calculateBTCChanges (response : option Q) (clk : BtcClock) (b : BtcState)
  : BtcData * BtcState :=
  let '(currentBTCPrice, b1) := fetchBTCPrice response clk b in
  match currentBTCPrice with
  | Some cur =>
      if Js.truthy (Some cur) then
        let priceChange :=
          match lastBTCPrice b1 with
          | Some lastp =>
              if Js.truthy (Some lastp) then Some (percentChange cur lastp) else None
          | None => None
          end in
        let priceChange30m :=
          match findThirtyMinutesAgo (tFind clk) (btcPriceHistory b1) with
          | Some oldPrice => Some (percentChange cur (price oldPrice))
          | None => None
          end in
        ({| btcPrice := Some cur; change := priceChange; change30m := priceChange30m |},
         {| lastBTCPrice := Some cur; btcPriceHistory := btcPriceHistory b1 |})
      else ({| btcPrice := None; change := None; change30m := None |}, b1)
  | None => ({| btcPrice := None; change := None; change30m := None |}, b1)
  end.

(** ** JavaScript objects enumerated with [for ... in]

    Own string-keyed properties in insertion order: assigning an existing
    key keeps its place, assigning a new key appends it, [delete] removes
    it. *)

Section Obj.
Context {V : Type}.

Fixpoint obj_get (k : string) (o : list (string * V)) : option V :=
  match o with
  | [] => None
  | (k', v) :: rest => if decide (k = k') then Some v else obj_get k rest
  end.

Fixpoint obj_set (k : string) (v : V) (o : list (string * V)) : list (string * V) :=
  match o with
  | [] => [(k, v)]
  | (k', v') :: rest =>
      if decide (k = k') then (k, v) :: rest else (k', v') :: obj_set k v rest
  end.

Fixpoint obj_delete (k : string) (o : list (string * V)) : list (string * V) :=
  match o with
  | [] => []
  | (k', v') :: rest =>
      if decide (k = k') then obj_delete k rest else (k', v') :: obj_delete k rest
  end.

Definition obj_keys (o : list (string * V)) : list string := map fst o.
End Obj.

(** ** Notifications and log records *)

(** The two message templates, by the values they interpolate.  [btcInfo]
    is the reference-asset line, which only the single-entry variant
    renders. *)
Inductive Message :=
| BuySignal (symbol : string) (entries : list Q) (target : Q)
    (btcInfo : option BtcData)
| TargetAchieved (symbol : string) (entries : list Q) (target : Q)
    (bottomPrice percentageDrop : option Q) (duration : Z)
    (btcInfo : option (BtcData * option Q)).

Inductive Event :=
| LogRSIAndPrice (symbol : string) (rsi15m rsi1m currentPrice : option Q)
| SendTelegramMessage (message : Message)
| EditTelegramMessage (handle : option Z) (message : Message)
| LogBuySignal (symbol : string) (entries : list Q) (target : Q) (duration : Z)
    (bottomPrice percentageDrop : option Q)
| TypeError.

(** What one detection sweep for one symbol reads from the outside: the two
    candle fetches ([None] when the request threw), the reference-asset
    ticker, the clock, and the message id the send resolved to ([None] when
    the send failed and [sendTelegramMessage] returned [undefined]). *)
(** What one iteration of the target-check loop reads from the outside. *)
Record Observation := {
  candles : option (list Q);
  observedAt : Z;
  obsBtcResponse : option Q;
  obsBtcClock : BtcClock
}.

Record Fetched := {
  prices15m : option (list Q);
  prices1m : option (list Q);
  btcResponse : option Q;
  btcClock : BtcClock;
  currentTime : Z;
  sent : option Z
}.

(** [prices[prices.length - 1]]: [undefined] on an empty array. *)
Definition lastPrice (prices : list Q) : option Q := last prices.

(** Number of new-signal notifications for [symbol] among [events]. *)
Definition isNewSignalFor (symbol : string) (e : Event) : bool :=
  match e with
  | SendTelegramMessage (BuySignal s _ _ _) => bool_decide (s = symbol)
  | _ => false
  end.

Definition newSignals (symbol : string) (events : list Event) : nat :=
  length (filter (fun e => isNewSignalFor symbol e = true) events).

(** ** [src/strategy.js]: the variant with averaging-down *)

Module Strategy.

Definition RSI_THRESHOLD_15m : Q := 10.
Definition RSI_THRESHOLD_1m : Q := 30.
Definition COOLDOWN_MINUTES : Z := 30.

(** The record stored in [sellPrices]; its [entryPrices] field holds a
    reference to the array that [entryPrices[symbol]] also names. *)
Record Position := {
  entryPricesRef : nat;
  sellPrice : Q;
  messageId : option Z;
  buyTime : Z
}.

(** The module-level trackers.  [heap] is the store of entry-price arrays,
    addressed by reference. *)
Record State := {
  lastNotificationTimes : gmap string Z;
  sellPrices : list (string * Position);
  bottomPrices : gmap string Q;
  entryPrices : gmap string nat;
  heap : gmap nat (list Q);
  btc : BtcState
}.

Definition initial : State :=
  {| lastNotificationTimes := ∅; sellPrices := []; bottomPrices := ∅;
     entryPrices := ∅; heap := ∅;
     btc := {| lastBTCPrice := None; btcPriceHistory := [] |} |}.

Definition with_btc (b : BtcState) (st : State) : State :=
  {| lastNotificationTimes := lastNotificationTimes st;
     sellPrices := sellPrices st; bottomPrices := bottomPrices st;
     entryPrices := entryPrices st; heap := heap st; btc := b |}.

Definition with_lastNotificationTimes (m : gmap string Z) (st : State) : State :=
  {| lastNotificationTimes := m;
     sellPrices := sellPrices st; bottomPrices := bottomPrices st;
     entryPrices := entryPrices st; heap := heap st; btc := btc st |}.

Definition with_sellPrices (o : list (string * Position)) (st : State) : State :=
  {| lastNotificationTimes := lastNotificationTimes st;
     sellPrices := o; bottomPrices := bottomPrices st;
     entryPrices := entryPrices st; heap := heap st; btc := btc st |}.

Definition with_bottomPrices (m : gmap string Q) (st : State) : State :=
  {| lastNotificationTimes := lastNotificationTimes st;
     sellPrices := sellPrices st; bottomPrices := m;
     entryPrices := entryPrices st; heap := heap st; btc := btc st |}.

Definition with_entryPrices (m : gmap string nat) (st : State) : State :=
  {| lastNotificationTimes := lastNotificationTimes st;
     sellPrices := sellPrices st; bottomPrices := bottomPrices st;
     entryPrices := m; heap := heap st; btc := btc st |}.

Definition with_heap (h : gmap nat (list Q)) (st : State) : State :=
  {| lastNotificationTimes := lastNotificationTimes st;
     sellPrices := sellPrices st; bottomPrices := bottomPrices st;
     entryPrices := entryPrices st; heap := h; btc := btc st |}.

(** The array a reference names. *)
Definition deref (ref : nat) (st : State) : list Q := default [] (heap st !! ref).

(** [arr.unshift(x)] on the array at [ref]. *)
Definition unshift (ref : nat) (x : Q) (st : State) : State :=
  with_heap (<[ref := x :: deref ref st]> (heap st)) st.

(** [if (!entryPrices[symbol]) entryPrices[symbol] = []]: a fresh array is
    allocated only when the map has none for the symbol.  Returns the
    reference [entryPrices[symbol]] evaluates to afterwards. *)
Definition ensureEntryArray (symbol : string) (st : State) : nat * State :=
  match entryPrices st !! symbol with
  | Some ref => (ref, st)
  | None =>
      let ref := fresh (dom (heap st)) in
      (ref, with_entryPrices (<[symbol := ref]> (entryPrices st))
              (with_heap (<[ref := []]> (heap st)) st))
  end.

(** The array [entryPrices[symbol]] names, empty when there is none. *)
Definition entriesOf (symbol : string) (st : State) : list Q :=
  match entryPrices st !! symbol with
  | Some ref => deref ref st
  | None => []
  end.

(** The entry prices of the position of [symbol], read through the
    reference its record holds. *)
Definition positionEntries (symbol : string) (st : State) : option (list Q) :=
  match obj_get symbol (sellPrices st) with
  | Some pos => Some (deref (entryPricesRef pos) st)
  | None => None
  end.

(** Where [handleRSI] stands when it either returns or suspends on
    [await sendTelegramMessage(...)].  [state] is what the module-level
    trackers hold at that point; [resume] is the rest of the function,
    given what the send resolved to. *)
Inductive Outcome :=
| Returned (state : State) (events : list Event)
| AwaitingSend (state : State) (events : list Event) (message : Message)
    (resume : option Z -> State).

Definition cooldownActive (symbol : string) (now : Z) (st : State) : bool :=
  match lastNotificationTimes st !! symbol with
  | Some lastNotificationTime =>
      (Js.diffMinutes now lastNotificationTime <? COOLDOWN_MINUTES)%Z
  | None => false
  end.

Definition raiseCondition (rsi15m rsi1m : option Q) : bool :=
  Js.lt (Js.nullToNumber rsi15m) RSI_THRESHOLD_15m
  && Js.gt (Js.nullToNumber rsi1m) RSI_THRESHOLD_1m.

(** Both candle fetches succeeded and the scores satisfy the raise
    condition. *)
Definition raiseEligible (inp : Fetched) : bool :=
  match prices15m inp, prices1m inp with
  | Some p15, Some p1 => raiseCondition (calculateRSI p15) (calculateRSI p1)
  | _, _ => false
  end.

(** The body of the raise branch once the cooldown test has passed
    (lines 189-208): everything up to the [await] on the send, and the rest
    as [resume]. *)
Definition openPosition (symbol : string) (currentPrice : Q) (now : Z)
           (log : Event) (st : State) : Outcome :=
  let st1 :=
    with_lastNotificationTimes (<[symbol := now]> (lastNotificationTimes st)) st in
  let '(ref, st2) := ensureEntryArray symbol st1 in
  let st3 := unshift ref currentPrice st2 in
  (* [entryPrices[symbol][0]]: the price just unshifted *)
  let firstEntry := default 0 (head (deref ref st3)) in
  let target := Js.toFixed 8 (firstEntry * (1011 # 1000)) in
  AwaitingSend st3 [log] (BuySignal symbol (deref ref st3) target None)
    (fun sentId =>
       with_bottomPrices (<[symbol := currentPrice]> (bottomPrices st3))
         (with_sellPrices
            (obj_set symbol
               {| entryPricesRef := ref; sellPrice := target;
                  messageId := sentId; buyTime := now |}
               (sellPrices st3))
            st3)).

(** The body of [if (existingSignal)] (lines 166-181). *)
Definition updateExisting (symbol : string) (existingSignal : Position)
           (currentPrice : Q) (log : Event) (st : State) : Outcome :=
  if Js.lt currentPrice (sellPrice existingSignal) then
    match entryPrices st !! symbol with
    | None => Returned st [log; TypeError]
    | Some ref =>
        if (length (deref ref st) =? 0)%nat
           || Js.ltU (Some currentPrice) (head (deref ref st))
        then
          let st1 := unshift ref currentPrice st in
          Returned st1
            [log;
             EditTelegramMessage (messageId existingSignal)
               (BuySignal symbol (deref ref st1) (sellPrice existingSignal) None)]
        else Returned st [log]
    end
  else Returned st [log].

Definition handleRSI_start (symbol : string) (inp : Fetched) (st0 : State) : Outcome :=
  let '(_, b) := calculateBTCChanges (btcResponse inp) (btcClock inp) (btc st0) in
  let st := with_btc b st0 in
  match prices15m inp, prices1m inp with
  | Some p15, Some p1 =>
      let rsi15m := calculateRSI p15 in
      let rsi1m := calculateRSI p1 in
      let log := LogRSIAndPrice symbol rsi15m rsi1m (lastPrice p1) in
      match lastPrice p1 with
      | None =>
          (* [prices1m] is empty: [currentPrice] is [undefined] and [rsi1m]
             is [null], so [currentPrice < ...] and [rsi1m > 30] are both
             false whichever branch is taken. *)
          Returned st [log]
      | Some currentPrice =>
          match obj_get symbol (sellPrices st) with
          | Some existingSignal =>
              updateExisting symbol existingSignal currentPrice log st
          | None =>
              if raiseCondition rsi15m rsi1m then
                if cooldownActive symbol (currentTime inp) st then Returned st [log]
                else openPosition symbol currentPrice (currentTime inp) log st
              else Returned st [log]
          end
      end
  | _, _ => Returned st []
  end.

(** One detection sweep for one symbol, run to completion. *)
Definition handleRSI (symbol : string) (inp : Fetched) (st : State)
  : State * list Event :=
  match handleRSI_start symbol inp st with
  | Returned st' events => (st', events)
  | AwaitingSend _ events message resume =>
      (resume (sent inp), events ++ [SendTelegramMessage message])
  end.

(** [delete entryPrices[symbol]] at the end of [checkTargetAchieved].  In
    that function [entryPrices] is the array destructured from the
    position record, which shadows the module-level map; a trading-pair
    name is not an own property of an array, so the statement removes
    nothing: the array at [ref] and the module-level map stay as they
    were. *)
Definition deleteOnLocalArray (symbol : string) (ref : nat) (st : State) : State := st.

(** One iteration of [for (const symbol in sellPrices)]. *)
Definition checkSymbol (symbol : string) (obs : Observation) (st : State)
  : State * list Event :=
  match obj_get symbol (sellPrices st) with
  | None => (st, [])   (* a deleted property is not visited *)
  | Some pos =>
      match candles obs with
      | None => (st, [])
      | Some prices =>
          if Js.geU (lastPrice prices) (Some (sellPrice pos)) then
            let duration := (observedAt obs - buyTime pos)%Z in
            let bottomPrice := bottomPrices st !! symbol in
            let entries := deref (entryPricesRef pos) st in
            let percentageDrop :=
              Js.toFixed 2 <$>
                Js.lift2 (fun e b => (e - b) / e * 100) (head entries) bottomPrice in
            let newMessage :=
              TargetAchieved symbol entries (sellPrice pos) bottomPrice
                percentageDrop duration None in
            let st1 := with_sellPrices (obj_delete symbol (sellPrices st)) st in
            let st2 := with_bottomPrices (delete symbol (bottomPrices st1)) st1 in
            let st3 := deleteOnLocalArray symbol (entryPricesRef pos) st2 in
            (st3,
             [EditTelegramMessage (messageId pos) newMessage;
              LogBuySignal symbol entries (sellPrice pos) duration bottomPrice
                percentageDrop])
          else (st, [])
      end
  end.

Fixpoint checkLoop (symbols : list string) (obs : string -> Observation) (st : State)
  : State * list Event :=
  match symbols with
  | [] => (st, [])
  | symbol :: rest =>
      let '(st1, e1) := checkSymbol symbol (obs symbol) st in
      let '(st2, e2) := checkLoop rest obs st1 in
      (st2, e1 ++ e2)
  end.

(** One target-check sweep: the properties of [sellPrices] in insertion
    order. *)
Definition checkTargetAchieved (obs : string -> Observation) (st : State)
  : State * list Event :=
  checkLoop (obj_keys (sellPrices st)) obs st.

(** *** Runs: the scheduler's sweeps, one after the other *)

Inductive Op :=
| Detect (symbol : string) (inp : Fetched)
| TargetCheck (obs : string -> Observation).

Definition step (op : Op) (st : State) : State * list Event :=
  match op with
  | Detect symbol inp => handleRSI symbol inp st
  | TargetCheck obs => checkTargetAchieved obs st
  end.

Fixpoint run (ops : list Op) (st : State) : State * list Event :=
  match ops with
  | [] => (st, [])
  | op :: rest =>
      let '(st1, e1) := step op st in
      let '(st2, e2) := run rest st1 in
      (st2, e1 ++ e2)
  end.

Definition isActive (symbol : string) (st : State) : bool :=
  match obj_get symbol (sellPrices st) with
  | Some _ => true
  | None => false
  end.

(** The position of [symbol] is open after every step of the run. *)
Fixpoint activeThroughout (symbol : string) (ops : list Op) (st : State) : bool :=
  match ops with
  | [] => true
  | op :: rest =>
      isActive symbol (step op st).1
      && activeThroughout symbol rest (step op st).1
  end.

(** No step of the run is a detection sweep for [symbol]. *)
Definition isDetectOf (symbol : string) (op : Op) : bool :=
  match op with
  | Detect s _ => bool_decide (s = symbol)
  | TargetCheck _ => false
  end.

(** The aliasing the source sets up: the record of an open position refers
    to the very array [entryPrices[symbol]] names. *)
Definition aliased (st : State) : Prop :=
  forall symbol pos,
    obj_get symbol (sellPrices st) = Some pos ->
    entryPrices st !! symbol = Some (entryPricesRef pos).

(** The recorded bottom price of [symbol] is at most every entry price of
    its position, that is, at most their minimum. *)
Definition bottomBelowEntries (symbol : string) (st : State) : bool :=
  match positionEntries symbol st, bottomPrices st !! symbol with
  | Some entries, Some bottom => forallb (Qle_bool bottom) entries
  | _, _ => false
  end.

End Strategy.

(** ** [src/unnamed/part_000]: the variant with a single buy price *)

Module Variant.

Definition RSI_THRESHOLD_15m : Q := 60.
Definition RSI_THRESHOLD_1m : Q := 10.
Definition COOLDOWN_MINUTES : Z := 5.

Record Position := {
  buyPrice : Q;
  sellPrice : Q;
  messageId : option Z;
  buyTime : Z;
  btcPriceAtBuy : option Q
}.

Record State := {
  lastNotificationTimes : gmap string Z;
  sellPrices : list (string * Position);
  bottomPrices : gmap string Q;
  btc : BtcState
}.

Definition initial : State :=
  {| lastNotificationTimes := ∅; sellPrices := []; bottomPrices := ∅;
     btc := {| lastBTCPrice := None; btcPriceHistory := [] |} |}.

Definition with_btc (b : BtcState) (st : State) : State :=
  {| lastNotificationTimes := lastNotificationTimes st;
     sellPrices := sellPrices st; bottomPrices := bottomPrices st; btc := b |}.

Definition with_lastNotificationTimes (m : gmap string Z) (st : State) : State :=
  {| lastNotificationTimes := m;
     sellPrices := sellPrices st; bottomPrices := bottomPrices st; btc := btc st |}.

Definition with_sellPrices (o : list (string * Position)) (st : State) : State :=
  {| lastNotificationTimes := lastNotificationTimes st;
     sellPrices := o; bottomPrices := bottomPrices st; btc := btc st |}.

Definition with_bottomPrices (m : gmap string Q) (st : State) : State :=
  {| lastNotificationTimes := lastNotificationTimes st;
     sellPrices := sellPrices st; bottomPrices := m; btc := btc st |}.

Inductive Outcome :=
| Returned (state : State) (events : list Event)
| AwaitingSend (state : State) (events : list Event) (message : Message)
    (resume : option Z -> State).

Definition cooldownActive (symbol : string) (now : Z) (st : State) : bool :=
  match lastNotificationTimes st !! symbol with
  | Some lastNotificationTime =>
      (Js.diffMinutes now lastNotificationTime <? COOLDOWN_MINUTES)%Z
  | None => false
  end.

Definition raiseCondition (rsi15m rsi1m : option Q) : bool :=
  Js.lt (Js.nullToNumber rsi15m) RSI_THRESHOLD_15m
  && Js.gt (Js.nullToNumber rsi1m) RSI_THRESHOLD_1m.

(** Both candle fetches succeeded and the scores satisfy the raise
    condition. *)
Definition raiseEligible (inp : Fetched) : bool :=
  match prices15m inp, prices1m inp with
  | Some p15, Some p1 => raiseCondition (calculateRSI p15) (calculateRSI p1)
  | _, _ => false
  end.

(** The body of the raise branch once the cooldown test has passed
    (lines 177-202): everything up to the [await] on the send, and the rest
    as [resume]. *)
Definition openPosition (symbol : string) (currentPrice : Q) (now : Z)
           (btcData : BtcData) (log : Event) (st : State) : Outcome :=
  let st1 :=
    with_lastNotificationTimes (<[symbol := now]> (lastNotificationTimes st)) st in
  let target := Js.toFixed 8 (currentPrice * (1011 # 1000)) in
  AwaitingSend st1 [log]
    (BuySignal symbol [currentPrice] target (Some btcData))
    (fun sentId =>
       with_bottomPrices (<[symbol := currentPrice]> (bottomPrices st1))
         (with_sellPrices
            (obj_set symbol
               {| buyPrice := currentPrice; sellPrice := target;
                  messageId := sentId; buyTime := now;
                  btcPriceAtBuy := btcPrice btcData |}
               (sellPrices st1))
            st1)).

Definition handleRSI_start (symbol : string) (inp : Fetched) (st0 : State) : Outcome :=
  let '(btcData, b) := calculateBTCChanges (btcResponse inp) (btcClock inp) (btc st0) in
  let st := with_btc b st0 in
  match prices15m inp, prices1m inp with
  | Some p15, Some p1 =>
      let rsi15m := calculateRSI p15 in
      let rsi1m := calculateRSI p1 in
      let log := LogRSIAndPrice symbol rsi15m rsi1m (lastPrice p1) in
      match lastPrice p1 with
      | None =>
          (* [prices1m] is empty: [rsi1m] is [null] and [rsi1m > 10] is
             false. *)
          Returned st [log]
      | Some currentPrice =>
          if raiseCondition rsi15m rsi1m then
            if cooldownActive symbol (currentTime inp) st then Returned st [log]
            else openPosition symbol currentPrice (currentTime inp) btcData log st
          else Returned st [log]
      end
  | _, _ => Returned st []
  end.

Definition handleRSI (symbol : string) (inp : Fetched) (st : State)
  : State * list Event :=
  match handleRSI_start symbol inp st with
  | Returned st' events => (st', events)
  | AwaitingSend _ events message resume =>
      (resume (sent inp), events ++ [SendTelegramMessage message])
  end.

(** [if (currentPrice < bottomPrices[symbol]) bottomPrices[symbol] = currentPrice]. *)
Definition updateBottom (symbol : string) (currentPrice : option Q) (st : State) : State :=
  match currentPrice with
  | Some p =>
      if Js.ltU (Some p) (bottomPrices st !! symbol)
      then with_bottomPrices (<[symbol := p]> (bottomPrices st)) st
      else st
  | None => st
  end.

(** One iteration of [for (const symbol in sellPrices)].  The body of
    [logBuySignal] is commented out in this variant, so the call leaves no
    record. *)
Definition checkSymbol (symbol : string) (obs : Observation) (st0 : State)
  : State * list Event :=
  match obj_get symbol (sellPrices st0) with
  | None => (st0, [])   (* a deleted property is not visited *)
  | Some pos =>
      let '(btcData, b) :=
        calculateBTCChanges (obsBtcResponse obs) (obsBtcClock obs) (btc st0) in
      let st := with_btc b st0 in
      match candles obs with
      | None => (st, [])
      | Some prices =>
          let currentPrice := lastPrice prices in
          let st1 := updateBottom symbol currentPrice st in
          if Js.geU currentPrice (Some (sellPrice pos)) then
            let duration := (observedAt obs - buyTime pos)%Z in
            let bottomPrice := bottomPrices st1 !! symbol in
            let percentageDrop :=
              Js.toFixed 2 <$>
                Js.lift2 (fun e b => (e - b) / e * 100) (Some (buyPrice pos)) bottomPrice in
            let btcChange :=
              match btcPriceAtBuy pos, btcPrice btcData with
              | Some atBuy, Some cur =>
                  if Js.truthy (Some atBuy) && Js.truthy (Some cur)
                  then Some (percentChange cur atBuy) else None
              | _, _ => None
              end in
            let newMessage :=
              TargetAchieved symbol [buyPrice pos] (sellPrice pos) bottomPrice
                percentageDrop duration (Some (btcData, btcChange)) in
            let st2 := with_sellPrices (obj_delete symbol (sellPrices st1)) st1 in
            let st3 := with_bottomPrices (delete symbol (bottomPrices st2)) st2 in
            (st3, [EditTelegramMessage (messageId pos) newMessage])
          else (st1, [])
      end
  end.

Fixpoint checkLoop (symbols : list string) (obs : string -> Observation) (st : State)
  : State * list Event :=
  match symbols with
  | [] => (st, [])
  | symbol :: rest =>
      let '(st1, e1) := checkSymbol symbol (obs symbol) st in
      let '(st2, e2) := checkLoop rest obs st1 in
      (st2, e1 ++ e2)
  end.

Definition checkTargetAchieved (obs : string -> Observation) (st : State)
  : State * list Event :=
  checkLoop (obj_keys (sellPrices st)) obs st.

Inductive Op :=
| Detect (symbol : string) (inp : Fetched)
| TargetCheck (obs : string -> Observation).

Definition step (op : Op) (st : State) : State * list Event :=
  match op with
  | Detect symbol inp => handleRSI symbol inp st
  | TargetCheck obs => checkTargetAchieved obs st
  end.

Fixpoint run (ops : list Op) (st : State) : State * list Event :=
  match ops with
  | [] => (st, [])
  | op :: rest =>
      let '(st1, e1) := step op st in
      let '(st2, e2) := run rest st1 in
      (st2, e1 ++ e2)
  end.

Definition isDetectOf (symbol : string) (op : Op) : bool :=
  match op with
  | Detect s _ => bool_decide (s = symbol)
  | TargetCheck _ => false
  end.

End Variant.

(** ** Sample inputs *)

Definition rising14 : list Q :=
  [1; 2; 3; 4; 5; 6; 7; 8; 9; 10; 11; 12; 13; 14].

(** Fourteen rising closes followed by one falling close. *)
Definition rising14_then_drop : list Q := rising14 ++ [13].

(** A reference-asset buffer read at minute 100 whose samples are 35, 20 and
    5 minutes old. *)
Definition sample35 : Sample := {| price := 100; timestamp := minutes 65 |}.
Definition sample20 : Sample := {| price := 101; timestamp := minutes 80 |}.
Definition sample5 : Sample := {| price := 102; timestamp := minutes 95 |}.
Definition buffer_35_20_5 : list Sample := [sample35; sample20; sample5].
Definition buffer_20_5 : list Sample := [sample20; sample5].
Definition minute100 : Z := minutes 100.

(** A tracker state read at minute 100 whose oldest retained sample is 30
    minutes and 30 seconds old. *)
Definition sample30 : Sample := {| price := 100; timestamp := (minutes 70 - 30000)%Z |}.
Definition tracker_30_20_5 : BtcState :=
  {| lastBTCPrice := Some 102; btcPriceHistory := [sample30; sample20; sample5] |}.

(** A tracker state holding the samples aged 35, 20 and 5 minutes at
    minute 100. *)
Definition tracker_35_20_5 : BtcState :=
  {| lastBTCPrice := Some 102; btcPriceHistory := buffer_35_20_5 |}.
Definition clockAt (t : Z) : BtcClock := {| tPush := t; tTrim := t; tFind := t |}.

(** Fifteen closes rising (falling) by one per candle and ending at [p]:
    the indicator is 100 on the first and 0 on the second. *)
Definition risingTo (p : Z) : list Q :=
  map (fun k => inject_Z (p - 14 + Z.of_nat k)) (seq 0 15).
Definition fallingTo (p : Z) : list Q :=
  map (fun k => inject_Z (p + 14 - Z.of_nat k)) (seq 0 15).

(** A detection sweep at time [now] whose candle fetches succeeded, whose
    ticker fetch failed and whose send resolved to [sentId]. *)
Definition sweepInput (p15 p1 : list Q) (now : Z) (sentId : option Z) : Fetched :=
  {| prices15m := Some p15; prices1m := Some p1; btcResponse := None;
     btcClock := clockAt now; currentTime := now; sent := sentId |}.

(** A raise-eligible sweep for [src/strategy.js] with current price [p]. *)
Definition raiseAt (p : Z) (now : Z) (sentId : option Z) : Fetched :=
  sweepInput (fallingTo p) (risingTo p) now sentId.

(** A sweep whose 15-minute fetch failed. *)
Definition unavailableAt (p : Z) (now : Z) : Fetched :=
  {| prices15m := None; prices1m := Some (risingTo p); btcResponse := Some 50000;
     btcClock := clockAt now; currentTime := now; sent := Some 1%Z |}.

(** A sweep whose 15-minute fetch returned two closes only, fewer than
    the indicator needs, next to a full 1-minute sequence ending at [p]. *)
Definition shortAt (p : Z) (now : Z) (sentId : option Z) : Fetched :=
  sweepInput [100; 101] (risingTo p) now sentId.

(** A sweep whose 1-minute fetch returned an empty array. *)
Definition emptyAt (now : Z) : Fetched :=
  sweepInput (fallingTo 100) [] now (Some 1%Z).

(** A target-check sweep at time [now] that sees every symbol at price [p]. *)
Definition observeAt (p : Z) (now : Z) : string -> Observation :=
  fun _ => {| candles := Some (risingTo p); observedAt := now;
              obsBtcResponse := None; obsBtcClock := clockAt now |}.

Definition ABCUSDT : string := "ABCUSDT".

(** The state of [src/strategy.js] after a first signal for [ABCUSDT] at
    price 100, raised at minute 1000. *)
Definition minute1000 : Z := minutes 1000.
Definition opened100 : Strategy.State :=
  (Strategy.run [Strategy.Detect ABCUSDT (raiseAt 100 minute1000 (Some 7%Z))]
     Strategy.initial).1.

(** A signal at 100, its target reached at 102 twenty seconds later, and a
    second raise-eligible sweep at 90 once the cooldown has expired. *)
Definition reopenRun : list Strategy.Op :=
  [Strategy.Detect ABCUSDT (raiseAt 100 minute1000 (Some 7%Z));
   Strategy.TargetCheck (observeAt 102 (minute1000 + 20000));
   Strategy.Detect ABCUSDT (raiseAt 90 (minute1000 + minutes 31) (Some 9%Z))].

(** A signal at 100 and a detection sweep that sees 95 twenty seconds
    later. *)
Definition averagingRun : list Strategy.Op :=
  [Strategy.Detect ABCUSDT (raiseAt 100 minute1000 (Some 7%Z));
   Strategy.Detect ABCUSDT (raiseAt 95 (minute1000 + 20000) (Some 8%Z))].


(** The same open position in the single-entry variant. *)
Definition variantOpened100 : Variant.State :=
  (Variant.run [Variant.Detect ABCUSDT (raiseAt 100 minute1000 (Some 7%Z))]
     Variant.initial).1.

(** * Further definitions *)

From Stdlib Require Import Lqa.

(** ** Scores of related price sequences *)

(** The closes [prices[0]], ..., [prices[13]] never fall (never rise). *)
Definition neverFalls (prices : list Q) : Prop :=
  forall i, (i < 13)%nat -> nth i prices 0 <= nth (S i) prices 0.
Definition neverRises (prices : list Q) : Prop :=
  forall i, (i < 13)%nat -> nth (S i) prices 0 <= nth i prices 0.

(** Fourteen equal closes. *)
Definition flat14 : list Q := repeat 7 14.

(** ** The reference-asset buffer over time *)

(** The buffer is oldest first and holds no sample stamped after [now]. *)
Definition trackerOk (now : Z) (b : BtcState) : Prop :=
  oldestFirst (btcPriceHistory b)
  /\ forall s, In s (btcPriceHistory b) -> (timestamp s <= now)%Z.

(** The samples of a buffer that are not older than [cutoff]. *)
Definition notBefore (cutoff : Z) (history : list Sample) : list Sample :=
  List.filter (fun s => negb (isBefore (timestamp s) cutoff)) history.

Definition noData : BtcData := {| btcPrice := None; change := None; change30m := None |}.

(** The tracker after a series of [calculateBTCChanges] calls, each with
    the answer of its ticker fetch and its clock readings. *)
Definition polls (fetches : list (option Q * BtcClock)) (b : BtcState) : BtcState :=
  fold_left (fun b f => snd (calculateBTCChanges f.1 f.2 b)) fetches b.

(** A fetch that failed followed by one that returned a zero price. *)
Definition failedThenZero : list (option Q * BtcClock) :=
  [(None, clockAt (minute100 + 20000)); (Some 0, clockAt (minute100 + 40000))].

(** ** Consistency of the trackers of [src/strategy.js] *)

(** Every array [entryPrices] names is in the store, and no two symbols
    name the same array. *)
Definition storeOk (st : Strategy.State) : Prop :=
  (forall s ref, Strategy.entryPrices st !! s = Some ref ->
                 is_Some (Strategy.heap st !! ref))
  /\ (forall s1 s2 ref,
         Strategy.entryPrices st !! s1 = Some ref ->
         Strategy.entryPrices st !! s2 = Some ref -> s1 = s2).

(** A symbol has a record in [sellPrices] exactly when it has a bottom
    price. *)
Definition tracked (st : Strategy.State) : Prop :=
  forall symbol,
    Strategy.isActive symbol st = true
    <-> is_Some (Strategy.bottomPrices st !! symbol).

(** The entry list of every open position has a first element. *)
Definition entriesNonEmpty (st : Strategy.State) : Prop :=
  forall symbol pos,
    obj_get symbol (Strategy.sellPrices st) = Some pos ->
    exists x rest, Strategy.heap st !! Strategy.entryPricesRef pos = Some (x :: rest).

Definition consistent (st : Strategy.State) : Prop :=
  Strategy.aliased st /\ storeOk st /\ tracked st /\ entriesNonEmpty st.

(** ** What the target-check decides *)

(** The fetch succeeded and the latest close is at or above the sell
    target of the position. *)
Definition reachesTarget (obs : Observation) (pos : Strategy.Position) : bool :=
  match candles obs with
  | Some prices => Js.geU (lastPrice prices) (Some (Strategy.sellPrice pos))
  | None => false
  end.

(** The trackers once the record and the bottom price of [symbol] have
    been deleted. *)
Definition closed (symbol : string) (st : Strategy.State) : Strategy.State :=
  Strategy.with_bottomPrices (delete symbol (Strategy.bottomPrices st))
    (Strategy.with_sellPrices (obj_delete symbol (Strategy.sellPrices st)) st).

(** ** Counting events *)

Definition isTypeError (e : Event) : bool :=
  match e with
  | TypeError => true
  | _ => false
  end.

(** Number of sweeps among [events] that threw. *)
Definition throws (events : list Event) : nat :=
  length (List.filter isTypeError events).

Definition isRsiLog (e : Event) : bool :=
  match e with
  | LogRSIAndPrice _ _ _ _ => true
  | _ => false
  end.

(** Number of rows appended to the indicator log among [events]. *)
Definition rsiLogs (events : list Event) : nat :=
  length (List.filter isRsiLog events).

Definition XYZUSDT : string := "XYZUSDT".

(** ** Consistency of the trackers of [src/unnamed/part_000] *)

(** Every open position has a bottom price, and it is at most the buy
    price. *)
Definition bottomBelowBuy (st : Variant.State) : Prop :=
  forall symbol pos,
    obj_get symbol (Variant.sellPrices st) = Some pos ->
    exists bottom,
      Variant.bottomPrices st !! symbol = Some bottom
      /\ bottom <= Variant.buyPrice pos.

(** A signal at 100, then target-checks that see 97 and 99. *)
Definition variantDipRun : list Variant.Op :=
  [Variant.Detect ABCUSDT (raiseAt 100 minute1000 (Some 7%Z));
   Variant.TargetCheck (observeAt 97 (minute1000 + 20000));
   Variant.TargetCheck (observeAt 99 (minute1000 + 40000))].

(** ** The subscription handler ([handleMessage], [sendSignalToSubscribers])

    [subscribedUsers] is a JavaScript [Set], enumerated in insertion order:
    a list of chat ids in which [add] appends an id that is not yet there
    and [delete] removes it.  The four replies are the four message texts of
    the source. *)

Module Telegram.

Inductive Reply :=
| Subscribed          (* "You've successfully subscribed to receive signals!" *)
| AlreadySubscribed   (* "You're already subscribed to receive signals." *)
| Unsubscribed        (* "You've unsubscribed from receiving signals." *)
| NotSubscribed.      (* "You're not subscribed to any signals." *)

(** [message.toLowerCase()] on the letters A-Z.  The full operation also
    maps letters outside ASCII, none of them to a letter of ["/start"] or
    ["/stop"], so the two comparisons below come out the same. *)
Definition lowerAscii (c : Ascii.ascii) : Ascii.ascii :=
  let n := Ascii.nat_of_ascii c in
  if (65 <=? n)%nat && (n <=? 90)%nat then Ascii.ascii_of_nat (n + 32) else c.

Fixpoint toLowerCase (s : string) : string :=
  match s with
  | EmptyString => EmptyString
  | String c rest => String (lowerAscii c) (toLowerCase rest)
  end.

Definition has (chatId : Z) (users : list Z) : bool := bool_decide (chatId ∈ users).

Definition add (chatId : Z) (users : list Z) : list Z :=
  if has chatId users then users else users ++ [chatId].

Definition remove (chatId : Z) (users : list Z) : list Z :=
  List.filter (fun c => negb (bool_decide (c = chatId))) users.

(** The new subscriber set and the messages sent, each with its
    recipient. *)
Definition handleMessage (chatId : Z) (message : string) (subscribedUsers : list Z)
  : list Z * list (Z * Reply) :=
  let lowerMessage := toLowerCase message in
  if bool_decide (lowerMessage = "/start"%string) then
    if negb (has chatId subscribedUsers)
    then (add chatId subscribedUsers, [(chatId, Subscribed)])
    else (subscribedUsers, [(chatId, AlreadySubscribed)])
  else if bool_decide (lowerMessage = "/stop"%string) then
    if has chatId subscribedUsers
    then (remove chatId subscribedUsers, [(chatId, Unsubscribed)])
    else (subscribedUsers, [(chatId, NotSubscribed)])
  else (subscribedUsers, []).

(** [for (const chatId of subscribedUsers) await sendTelegramMessage(...)]:
    the recipients, in order. *)
Definition sendSignalToSubscribers (subscribedUsers : list Z) : list Z :=
  subscribedUsers.

(** The subscriber set after a sequence of incoming messages. *)
Fixpoint handleMessages (incoming : list (Z * string)) (subscribedUsers : list Z)
  : list Z :=
  match incoming with
  | [] => subscribedUsers
  | (chatId, message) :: rest =>
      handleMessages rest (handleMessage chatId message subscribedUsers).1
  end.

(** What the last command of [chatId] among [incoming] asked for: [Some
    true] for a subscription, [Some false] for a cancellation, [None] when
    it sent neither. *)
Fixpoint lastCommand (chatId : Z) (incoming : list (Z * string)) : option bool :=
  match incoming with
  | [] => None
  | (c, message) :: rest =>
      match lastCommand chatId rest with
      | Some b => Some b
      | None =>
          if bool_decide (c = chatId) then
            if bool_decide (toLowerCase message = "/start"%string) then Some true
            else if bool_decide (toLowerCase message = "/stop"%string) then Some false
            else None
          else None
      end
  end.

End Telegram.

(** ** The log files ([initializeLogFiles])

    The file system is a finite map from paths to contents:
    [fs.existsSync] is a lookup and [fs.writeFileSync] an insertion that
    replaces the whole content. *)

Module LogFiles.

Definition RSI_LOG_FILE : string := "./rsi_data.csv".
Definition BUY_SIGNAL_LOG_FILE : string := "./buy_signals.csv".

Definition newline : string := String (Ascii.ascii_of_nat 10) EmptyString.

Definition rsiHeader : string :=
  ("Timestamp,Symbol,RSI_15m,RSI_1m,Current Price" ++ newline)%string.

(** The header of [src/strategy.js]. *)
Definition buySignalHeader : string :=
  ("Timestamp,Symbol,Entry Prices,Sell Price,Duration,Bottom Price,Percentage Drop,BTC Change,BTC 30m Change"
     ++ newline)%string.

(** The header of [src/unnamed/part_000]. *)
Definition buySignalHeaderVariant : string :=
  ("Timestamp,Symbol,RSI_15m,RSI_1m,Buy Price,Sell Price,Duration,Bottom Price,Percentage Drop,BTC Change,BTC 30m Change"
     ++ newline)%string.

Definition existsSync (path : string) (fs : gmap string string) : bool :=
  bool_decide (is_Some (fs !! path)).

Definition writeFileSync (path content : string) (fs : gmap string string)
  : gmap string string :=
  <[path := content]> fs.

(** [initializeLogFiles], with the buy-signal header of the variant at
    hand. *)
Definition initializeLogFiles (header : string) (fs : gmap string string)
  : gmap string string :=
  let fs1 :=
    if negb (existsSync RSI_LOG_FILE fs)
    then writeFileSync RSI_LOG_FILE rsiHeader fs else fs in
  if negb (existsSync BUY_SIGNAL_LOG_FILE fs1)
  then writeFileSync BUY_SIGNAL_LOG_FILE header fs1 else fs1.

End LogFiles.
(** * Properties *)

(** Case analysis on the innermost scrutinee of the goal, repeated. *)
Ltac break_match :=
  repeat match goal with
         | |- context [match ?x with _ => _ end] =>
             lazymatch x with
             | context [match _ with _ => _ end] => fail
             | _ => destruct x eqn:?
             end
         end.

(** ** The indicator calculator *)

Section RsiFacts.

Lemma skipn_deltas (i : nat) : forall prices : list Q,
  (S i < length prices)%nat ->
  skipn i (deltas prices)
  = (nth (S i) prices 0 - nth i prices 0) :: skipn (S i) (deltas prices).
Proof.
  induction i as [|i IH]; intros [|a [|b rest]] Hlen; simpl in Hlen; try lia.
  - reflexivity.
  - change (deltas (a :: b :: rest)) with ((b - a) :: deltas (b :: rest)).
    change (skipn (S i) ((b - a) :: deltas (b :: rest)))
      with (skipn i (deltas (b :: rest))).
    rewrite (IH (b :: rest)) by (simpl; lia).
    reflexivity.
Qed.

(** The loop accumulates, from index [S i] on, the gains and the losses
    of the next [n] deltas. *)
Lemma rsi_loop_sums (prices : list Q) : forall (n i : nat) (g l : Q),
  (S i + n <= length prices)%nat ->
  let ds := firstn n (skipn i (deltas prices)) in
  fst (rsi_loop prices (S i) n g l) == g + Qsum (map gainOf ds)
  /\ snd (rsi_loop prices (S i) n g l) == l + Qsum (map lossOf ds).
Proof.
  induction n as [|n IH]; intros i g l Hlen ds; subst ds.
  - simpl. split; ring.
  - cbn [rsi_loop]. rewrite Nat.sub_succ, Nat.sub_0_r.
    rewrite skipn_deltas by lia.
    set (d := nth (S i) prices 0 - nth i prices 0).
    cbn [firstn map Qsum fold_right].
    fold (Qsum (map gainOf (firstn n (skipn (S i) (deltas prices))))).
    fold (Qsum (map lossOf (firstn n (skipn (S i) (deltas prices))))).
    unfold gainOf at 1, lossOf at 1.
    destruct (Js.gt d 0).
    + destruct (IH (S i) (g + d) l ltac:(lia)) as [Hg Hl].
      rewrite Hg, Hl. split; ring.
    + destruct (IH (S i) g (l - d) ltac:(lia)) as [Hg Hl].
      rewrite Hg, Hl. split; ring.
Qed.

Lemma calculateRSI_unavailable_iff (prices : list Q) :
  calculateRSI prices = None <-> (length prices < RSI_PERIOD)%nat.
Proof.
  unfold calculateRSI, calculateRSI_period.
  destruct (Nat.ltb_spec (length prices) RSI_PERIOD) as [Hlt | Hge].
  - split; [intros _; exact Hlt | reflexivity].
  - destruct (rsi_loop prices 1 (RSI_PERIOD - 1) 0 0) as [g l].
    split; [| lia].
    destruct (Qeq_bool _ 0); discriminate.
Qed.

End RsiFacts.

(** C4, as stated, fails: on fifteen closes whose only fall is the last
    delta, [calculateRSI] answers 100, while the score over the first
    fourteen deltas is not 100. *)
Lemma calculateRSI_ignores_delta_14 :
  (RSI_PERIOD + 1 <= length rising14_then_drop)%nat
  /\ calculateRSI rising14_then_drop = Some 100
  /\ ~ (100 == scoreOverDeltas 14 rising14_then_drop).
Proof.
  split; [vm_compute; lia |].
  split; [reflexivity |].
  vm_compute. discriminate.
Qed.

(** C4 (amended): for every price sequence of at least [RSI_PERIOD] = 14
    closes, [calculateRSI] returns [100 - 100 / (1 + avgGain / avgLoss)]
    where gains and losses are summed over the first 13 consecutive deltas
    (those between the first 14 closes) and each sum is divided by 14; when
    the average loss is zero it returns 100. *)
Theorem calculateRSI_first_13_deltas (prices : list Q) :
  (RSI_PERIOD <= length prices)%nat ->
  exists score,
    calculateRSI prices = Some score
    /\ score == scoreOverDeltas 13 prices.
Proof.
  intros Hlen.
  unfold calculateRSI, calculateRSI_period.
  destruct (Nat.ltb_spec (length prices) RSI_PERIOD) as [Hlt | _]; [lia |].
  change (RSI_PERIOD - 1)%nat with 13%nat.
  change (inject_Z (Z.of_nat RSI_PERIOD)) with 14.
  destruct (rsi_loop_sums prices 13 0 0 0 ltac:(unfold RSI_PERIOD in Hlen; lia))
    as [Hg Hl].
  destruct (rsi_loop prices 1 13 0 0) as [g l].
  cbv zeta in Hg, Hl. cbn [fst snd] in Hg, Hl. rewrite skipn_O in Hg, Hl.
  unfold scoreOverDeltas.
  set (G := Qsum (map gainOf (firstn 13 (deltas prices)))) in *.
  set (L := Qsum (map lossOf (firstn 13 (deltas prices)))) in *.
  assert (Hg' : g == G) by (rewrite Hg; ring).
  assert (Hl' : l == L) by (rewrite Hl; ring).
  assert (Hb : Qeq_bool (l / 14) 0 = Qeq_bool (L / 14) 0).
  { destruct (Qeq_bool (L / 14) 0) eqn:E.
    - apply Qeq_bool_iff. apply Qeq_bool_iff in E. rewrite Hl'. exact E.
    - destruct (Qeq_bool (l / 14) 0) eqn:E'; [| reflexivity].
      apply Qeq_bool_iff in E'. rewrite Hl' in E'.
      apply Qeq_bool_iff in E'. congruence. }
  rewrite Hb.
  destruct (Qeq_bool (L / 14) 0).
  - eexists; split; [reflexivity | reflexivity].
  - eexists; split; [reflexivity |].
    rewrite Hg', Hl'. reflexivity.
Qed.

Lemma calculateRSI_first_13_deltas_witness :
  (RSI_PERIOD <= length rising14_then_drop)%nat
  /\ exists score,
       calculateRSI rising14_then_drop = Some score
       /\ score == scoreOverDeltas 13 rising14_then_drop.
Proof.
  split; [vm_compute; lia |].
  apply (calculateRSI_first_13_deltas rising14_then_drop).
  vm_compute; lia.
Defined.

(** C5, as stated, fails: a sequence of exactly 14 closes is shorter than
    [RSI_PERIOD + 1] and still gets a score. *)
Lemma calculateRSI_scores_14_closes :
  (length rising14 < RSI_PERIOD + 1)%nat
  /\ calculateRSI rising14 = Some 100.
Proof. split; [vm_compute; lia | reflexivity]. Qed.

(** C5 (amended): for every price sequence shorter than [RSI_PERIOD]
    elements (length at most 13), [calculateRSI] returns [null]. *)
Theorem calculateRSI_short_unavailable (prices : list Q) :
  (length prices < RSI_PERIOD)%nat ->
  calculateRSI prices = None.
Proof. intros Hlen. apply calculateRSI_unavailable_iff. exact Hlen. Qed.

Lemma calculateRSI_short_unavailable_witness :
  (length [100; 101; 102] < RSI_PERIOD)%nat
  /\ calculateRSI [100; 101; 102] = None.
Proof.
  split; [vm_compute; lia |].
  apply (calculateRSI_short_unavailable [100; 101; 102]).
  vm_compute; lia.
Defined.

(** ** The reference asset tracker *)

Section BtcFacts.

Lemma evictBefore_In (cutoff : Z) (s : Sample) : forall history,
  In s (evictBefore cutoff history) -> In s history.
Proof.
  induction history as [|e rest IH]; simpl; [tauto |].
  destruct (isBefore (timestamp e) cutoff); [right; auto | tauto].
Qed.

Lemma evictBefore_oldestFirst (cutoff : Z) : forall history,
  oldestFirst history -> oldestFirst (evictBefore cutoff history).
Proof.
  unfold oldestFirst.
  induction history as [|e rest IH]; simpl; intros Hs; [exact Hs |].
  destruct (isBefore (timestamp e) cutoff); [| exact Hs].
  apply IH. inversion Hs; assumption.
Qed.

(** After the eviction no retained sample is older than the cutoff. *)
Lemma evictBefore_retained (cutoff : Z) (s : Sample) : forall history,
  oldestFirst history ->
  In s (evictBefore cutoff history) -> (cutoff <= timestamp s)%Z.
Proof.
  unfold oldestFirst.
  induction history as [|e rest IH]; simpl; intros Hs Hin; [tauto |].
  inversion Hs as [|? ? Hrest Hall]; subst.
  destruct (Z.ltb_spec (timestamp e) cutoff) as [Hlt | Hge];
    unfold isBefore in Hin.
  - destruct (Z.ltb_spec (timestamp e) cutoff); [| lia]. auto.
  - destruct (Z.ltb_spec (timestamp e) cutoff); [lia |].
    destruct Hin as [<- | Hin]; [exact Hge |].
    rewrite Forall_forall in Hall. specialize (Hall s).
    rewrite <- list_elem_of_In in Hin. specialize (Hall Hin). lia.
Qed.

Lemma push_oldestFirst (s : Sample) : forall history,
  oldestFirst history ->
  (forall s', In s' history -> (timestamp s' <= timestamp s)%Z) ->
  oldestFirst (history ++ [s]).
Proof.
  unfold oldestFirst.
  induction history as [|e rest IH]; simpl; intros Hs Hle.
  - repeat constructor.
  - inversion Hs as [|? ? Hrest Hall]; subst.
    constructor; [apply IH; auto |].
    apply Forall_app. split; [exact Hall |].
    constructor; [apply Hle; auto | constructor].
Qed.

(** On a buffer kept oldest first, [find] returns the oldest of the
    samples that pass the test. *)
Lemma findThirtyMinutesAgo_Some (now : Z) (s : Sample) : forall history,
  oldestFirst history ->
  findThirtyMinutesAgo now history = Some s ->
  In s history
  /\ (minutes 30 <= ageAt now s)%Z
  /\ forall s', In s' history -> (minutes 30 <= ageAt now s')%Z ->
                (timestamp s <= timestamp s')%Z.
Proof.
  unfold oldestFirst, findThirtyMinutesAgo, ageAt, isSameOrBefore.
  induction history as [|e rest IH]; simpl; intros Hs Hfind; [discriminate |].
  inversion Hs as [|? ? Hrest Hall]; subst.
  destruct (Z.leb_spec (timestamp e) (now - minutes 30)) as [Hle | Hgt].
  - injection Hfind as <-.
    split; [auto |]. split; [lia |].
    intros s' [<- | Hin] _; [lia |].
    rewrite Forall_forall in Hall. apply Hall.
    apply list_elem_of_In. exact Hin.
  - destruct (IH Hrest Hfind) as (Hin & Hage & Hold).
    split; [auto |]. split; [exact Hage |].
    intros s' [<- | Hin'] Hage'; [lia | auto].
Qed.

Lemma findThirtyMinutesAgo_None (now : Z) : forall history,
  findThirtyMinutesAgo now history = None ->
  forall s', In s' history -> (ageAt now s' < minutes 30)%Z.
Proof.
  unfold findThirtyMinutesAgo, ageAt, isSameOrBefore.
  intros history Hnone s' Hin.
  pose proof (find_none _ _ Hnone s' Hin) as Hf. simpl in Hf.
  destruct (Z.leb_spec (timestamp s') (now - minutes 30)); [discriminate | lia].
Qed.

(** On a buffer kept oldest first, the eviction loop is a filter. *)
Lemma evictBefore_filter (cutoff : Z) : forall history : list Sample,
  oldestFirst history ->
  evictBefore cutoff history
  = List.filter (fun s => negb (isBefore (timestamp s) cutoff)) history.
Proof.
  unfold oldestFirst.
  induction history as [|e rest IH]; intros Hs; [reflexivity |].
  inversion Hs as [|? ? Hrest Hall]; subst.
  cbn [evictBefore List.filter].
  destruct (isBefore (timestamp e) cutoff) eqn:E; cbn [negb]; [apply IH; exact Hrest |].
  f_equal. symmetry. apply forallb_filter_id.
  apply forallb_forall. intros s Hin.
  rewrite Forall_forall in Hall.
  assert (Hle : (timestamp e <= timestamp s)%Z)
    by (apply Hall, list_elem_of_In; exact Hin).
  unfold isBefore in *. apply negb_true_iff.
  apply Z.ltb_ge. apply Z.ltb_ge in E. lia.
Qed.

(** On a buffer kept oldest first, the sample [find] returns is the head
    of the buffer. *)
Lemma findThirtyMinutesAgo_head (now : Z) (s : Sample) : forall history,
  oldestFirst history ->
  findThirtyMinutesAgo now history = Some s ->
  exists rest,
    history = s :: rest
    /\ forall s', In s' history -> (timestamp s <= timestamp s')%Z.
Proof.
  unfold oldestFirst, findThirtyMinutesAgo, isSameOrBefore.
  intros [|e rest] Hs Hfind; [discriminate |].
  inversion Hs as [|? ? Hrest Hall]; subst.
  rewrite Forall_forall in Hall.
  cbn [List.find] in Hfind.
  destruct (Z.leb_spec (timestamp e) (now - minutes 30)) as [Hle | Hgt].
  - injection Hfind as <-. exists rest. split; [reflexivity |].
    intros s' [<- | Hin]; [lia |]. apply Hall, list_elem_of_In. exact Hin.
  - apply find_some in Hfind as [Hin Hpass].
    apply Z.leb_le in Hpass.
    assert (timestamp e <= timestamp s)%Z by (apply Hall, list_elem_of_In; exact Hin).
    lia.
Qed.

End BtcFacts.

(** C8, as stated, fails: on a tracker whose buffer holds the samples
    aged 35, 20 and 5 minutes, [calculateBTCChanges] selects no comparator
    at all.  [fetchBTCPrice] has just evicted the 35-minute sample (it is
    older than 31 minutes), no retained sample is 30 minutes old, and the
    30-minute change is unavailable. *)
Lemma calculateBTCChanges_evicts_35_minute_sample :
  btcPriceHistory tracker_35_20_5 = [sample35; sample20; sample5]
  /\ map (ageAt minute100) (btcPriceHistory tracker_35_20_5)
     = [minutes 35; minutes 20; minutes 5]
  /\ let result := calculateBTCChanges (Some 103) (clockAt minute100) tracker_35_20_5 in
     change30m (fst result) = None
     /\ existsb (fun s => (timestamp s =? timestamp sample35)%Z)
          (btcPriceHistory (snd result)) = false.
Proof. vm_compute. auto. Qed.

(** C8 (amended): when [calculateBTCChanges] computes the 30-minute
    change after a non-zero fetch, the buffer it searches is the old buffer
    plus the new sample, without the samples older than 31 minutes; the
    comparator is the oldest sample of that buffer, its head, when that
    sample is at least 30 minutes old, and the change is unavailable when no
    retained sample is that old.  On a buffer holding samples aged 35, 20
    and 5 minutes the 35-minute sample is evicted and the change is
    unavailable; with a sample aged 30 minutes 30 seconds in its place that
    sample is selected, not the 20-minute one. *)
Theorem calculateBTCChanges_comparator :
  (forall (cur : Q) (clk : BtcClock) (b : BtcState),
      oldestFirst (btcPriceHistory b) ->
      (forall s, In s (btcPriceHistory b) -> (timestamp s <= tPush clk)%Z) ->
      Js.truthy (Some cur) = true ->
      let result := calculateBTCChanges (Some cur) clk b in
      let retained := btcPriceHistory (snd result) in
      retained
      = notBefore (tTrim clk - minutes 31)
          (btcPriceHistory b ++ [{| price := cur; timestamp := tPush clk |}])
      /\ ((exists s rest,
              retained = s :: rest
              /\ (minutes 30 <= ageAt (tFind clk) s)%Z
              /\ (forall s', In s' retained -> (timestamp s <= timestamp s')%Z)
              /\ change30m (fst result) = Some (percentChange cur (price s)))
          \/ ((forall s', In s' retained -> (ageAt (tFind clk) s' < minutes 30)%Z)
              /\ change30m (fst result) = None)))
  /\ (let result := calculateBTCChanges (Some 103) (clockAt minute100) tracker_35_20_5 in
      btcPriceHistory (snd result)
      = [sample20; sample5; {| price := 103; timestamp := minute100 |}]
      /\ change30m (fst result) = None)
  /\ (let result := calculateBTCChanges (Some 103) (clockAt minute100) tracker_30_20_5 in
      btcPriceHistory (snd result)
      = [sample30; sample20; sample5; {| price := 103; timestamp := minute100 |}]
      /\ change30m (fst result) = Some (percentChange 103 (price sample30))).
Proof.
  split; [| split; split; vm_compute; reflexivity].
  intros cur clk b Hsorted Hpush Htruthy result retained.
  set (pushed := btcPriceHistory b ++ [{| price := cur; timestamp := tPush clk |}]).
  assert (Hpushed : oldestFirst pushed) by (apply push_oldestFirst; assumption).
  assert (Hret : retained = evictBefore (tTrim clk - minutes 31) pushed
                 /\ change30m (fst result)
                    = (fun s => percentChange cur (price s))
                        <$> findThirtyMinutesAgo (tFind clk) retained).
  { subst result retained. unfold calculateBTCChanges, fetchBTCPrice.
    rewrite Htruthy. cbn [fst snd btcPriceHistory change30m].
    split; [reflexivity |].
    destruct (findThirtyMinutesAgo _ _); reflexivity. }
  destruct Hret as [Hret Hchange].
  assert (Hsortedr : oldestFirst retained)
    by (rewrite Hret; apply evictBefore_oldestFirst; exact Hpushed).
  split.
  { rewrite Hret. apply evictBefore_filter. exact Hpushed. }
  destruct (findThirtyMinutesAgo (tFind clk) retained) as [s|] eqn:Hfind.
  - left.
    destruct (findThirtyMinutesAgo_Some _ _ _ Hsortedr Hfind) as (_ & Hage & _).
    destruct (findThirtyMinutesAgo_head _ _ _ Hsortedr Hfind) as (rest & Hhead & Hold).
    exists s, rest. repeat split; assumption.
  - right. split; [| exact Hchange].
    apply findThirtyMinutesAgo_None. exact Hfind.
Qed.

Lemma calculateBTCChanges_comparator_witness :
  oldestFirst (btcPriceHistory tracker_30_20_5)
  /\ (forall s, In s (btcPriceHistory tracker_30_20_5) ->
                (timestamp s <= tPush (clockAt minute100))%Z)
  /\ Js.truthy (Some 103) = true
  /\ let result := calculateBTCChanges (Some 103) (clockAt minute100) tracker_30_20_5 in
     let retained := btcPriceHistory (snd result) in
     retained
     = notBefore (minute100 - minutes 31)
         (btcPriceHistory tracker_30_20_5 ++ [{| price := 103; timestamp := minute100 |}])
     /\ ((exists s rest,
             retained = s :: rest
             /\ (minutes 30 <= ageAt minute100 s)%Z
             /\ (forall s', In s' retained -> (timestamp s <= timestamp s')%Z)
             /\ change30m (fst result) = Some (percentChange 103 (price s)))
         \/ ((forall s', In s' retained -> (ageAt minute100 s' < minutes 30)%Z)
             /\ change30m (fst result) = None)).
Proof.
  assert (Hs : oldestFirst (btcPriceHistory tracker_30_20_5)).
  { repeat constructor; vm_compute; discriminate. }
  assert (Hp : forall s, In s (btcPriceHistory tracker_30_20_5) ->
                         (timestamp s <= tPush (clockAt minute100))%Z).
  { intros s [<- | [<- | [<- | []]]]; vm_compute; discriminate. }
  split; [exact Hs |]. split; [exact Hp |]. split; [reflexivity |].
  exact (proj1 calculateBTCChanges_comparator 103 (clockAt minute100)
           tracker_30_20_5 Hs Hp eq_refl).
Defined.

(** On that tracker state the 30-minute change is taken against the sample
    aged 30 minutes 30 seconds: 100 to 103 is 3 percent. *)
Example calculateBTCChanges_tracker_30_20_5 :
  change30m (fst (calculateBTCChanges (Some 103) (clockAt minute100) tracker_30_20_5))
  = Some 3.
Proof. vm_compute. reflexivity. Qed.

(** Inside one [calculateBTCChanges] call the buffer has just been trimmed:
    with a single clock reading, no retained sample is older than 31
    minutes. *)
Lemma calculateBTCChanges_retained_age (cur : Q) (t : Z) (b : BtcState) (s : Sample) :
  oldestFirst (btcPriceHistory b) ->
  (forall s', In s' (btcPriceHistory b) -> (timestamp s' <= t)%Z) ->
  In s (btcPriceHistory (snd (calculateBTCChanges (Some cur) (clockAt t) b))) ->
  (ageAt t s <= minutes 31)%Z.
Proof.
  intros Hs Hp Hin.
  assert (Hin' : In s (evictBefore (t - minutes 31)
                         (btcPriceHistory b ++ [{| price := cur; timestamp := t |}]))).
  { revert Hin. unfold calculateBTCChanges, fetchBTCPrice. cbn [tPush tTrim clockAt].
    destruct (Js.truthy (Some cur)); cbn [snd btcPriceHistory]; tauto. }
  apply evictBefore_retained in Hin'.
  - unfold ageAt. lia.
  - apply push_oldestFirst; [exact Hs | exact Hp].
Qed.

(** ** Objects in insertion order *)

Section ObjFacts.
Context {V : Type}.
Implicit Types (k : string) (v : V) (o : list (string * V)).

Lemma obj_get_set_eq k v o : obj_get k (obj_set k v o) = Some v.
Proof.
  induction o as [|[k' v'] rest IH]; simpl.
  - destruct (decide (k = k)); congruence.
  - destruct (decide (k = k')) as [->|Hne]; simpl.
    + destruct (decide (k' = k')); congruence.
    + destruct (decide (k = k')); [contradiction | exact IH].
Qed.

Lemma obj_get_set_ne k k' v o :
  k <> k' -> obj_get k' (obj_set k v o) = obj_get k' o.
Proof.
  intros Hne. induction o as [|[k0 v0] rest IH]; simpl.
  - destruct (decide (k' = k)); congruence.
  - destruct (decide (k = k0)) as [->|Hne0]; simpl.
    + destruct (decide (k' = k0)); congruence.
    + destruct (decide (k' = k0)); [reflexivity | exact IH].
Qed.

Lemma obj_get_delete_eq k o : obj_get k (obj_delete k o) = None.
Proof.
  induction o as [|[k' v'] rest IH]; simpl; [reflexivity |].
  destruct (decide (k = k')) as [->|Hne]; simpl; [exact IH |].
  destruct (decide (k = k')); [contradiction | exact IH].
Qed.

Lemma obj_get_delete_ne k k' o :
  k <> k' -> obj_get k' (obj_delete k o) = obj_get k' o.
Proof.
  intros Hne. induction o as [|[k0 v0] rest IH]; simpl; [reflexivity |].
  destruct (decide (k = k0)) as [->|Hne0]; simpl.
  - destruct (decide (k' = k0)); [congruence | exact IH].
  - destruct (decide (k' = k0)); [reflexivity | exact IH].
Qed.

End ObjFacts.

(** ** Counting notifications, and the cooldown arithmetic *)

Lemma newSignals_app (symbol : string) (e1 e2 : list Event) :
  newSignals symbol (e1 ++ e2) = (newSignals symbol e1 + newSignals symbol e2)%nat.
Proof. unfold newSignals. rewrite filter_app, length_app. reflexivity. Qed.


Lemma lastPrice_nonempty (prices : list Q) :
  (0 < length prices)%nat -> exists p, lastPrice prices = Some p.
Proof.
  unfold lastPrice. intros Hlen.
  destruct (last prices) as [p|] eqn:E; [eauto |].
  apply last_None in E. subst. simpl in Hlen. lia.
Qed.

(** ** [src/strategy.js] *)

Module StrategyFacts.
Import Strategy.

Ltac unfold_handleRSI :=
  unfold handleRSI, handleRSI_start, openPosition, updateExisting,
    ensureEntryArray, unshift, raiseCondition, cooldownActive.

(** A detection sweep for [s] leaves the records of the other symbols in
    [sellPrices] alone. *)
Lemma handleRSI_sellPrices_other (s symbol : string) (inp : Fetched) (st : State) :
  s <> symbol ->
  obj_get symbol (sellPrices (handleRSI s inp st).1)
  = obj_get symbol (sellPrices st).
Proof.
  intros Hne. unfold_handleRSI. break_match; cbn; try reflexivity;
    apply obj_get_set_ne; exact Hne.
Qed.

(** While a position is open, a detection sweep for its symbol does not
    touch [sellPrices]. *)
Lemma handleRSI_sellPrices_active (symbol : string) (inp : Fetched) (st : State) :
  isActive symbol st = true ->
  sellPrices (handleRSI symbol inp st).1 = sellPrices st.
Proof.
  unfold isActive. intros Hact. unfold_handleRSI.
  cbn [sellPrices with_btc].
  break_match; cbn; try reflexivity; discriminate.
Qed.

Lemma handleRSI_lastNotificationTimes_other
      (s symbol : string) (inp : Fetched) (st : State) :
  s <> symbol ->
  lastNotificationTimes (handleRSI s inp st).1 !! symbol
  = lastNotificationTimes st !! symbol.
Proof.
  intros Hne. unfold_handleRSI. break_match; cbn; try reflexivity;
    apply lookup_insert_ne; exact Hne.
Qed.

Lemma handleRSI_newSignals_other (s symbol : string) (inp : Fetched) (st : State) :
  s <> symbol ->
  newSignals symbol (handleRSI s inp st).2 = 0%nat.
Proof.
  intros Hne. unfold_handleRSI. break_match; cbn; try reflexivity;
    unfold newSignals; cbn; rewrite bool_decide_eq_false_2 by exact Hne;
    reflexivity.
Qed.

Lemma deref_unshift (ref : nat) (x : Q) (st : State) :
  deref ref (unshift ref x st) = x :: deref ref st.
Proof.
  unfold deref at 1, unshift. cbn [heap with_heap].
  rewrite lookup_insert_eq. reflexivity.
Qed.

Lemma ensureEntryArray_deref (symbol : string) (st : State) :
  deref (ensureEntryArray symbol st).1 (ensureEntryArray symbol st).2
  = entriesOf symbol st.
Proof.
  unfold ensureEntryArray, entriesOf.
  destruct (entryPrices st !! symbol) as [ref|]; cbn [fst snd]; [reflexivity |].
  unfold deref. cbn [heap with_heap with_entryPrices].
  rewrite lookup_insert_eq. reflexivity.
Qed.

(** The raise branch: the state it suspends in and the state it resumes
    to. *)
Lemma openPosition_spec (symbol : string) (cp : Q) (now : Z) (log : Event) (st : State) :
  exists ref st3 resume,
    openPosition symbol cp now log st
    = AwaitingSend st3 [log]
        (BuySignal symbol (cp :: entriesOf symbol st)
           (Js.toFixed 8 (cp * (1011 # 1000))) None)
        resume
    /\ lastNotificationTimes st3 = <[symbol := now]> (lastNotificationTimes st)
    /\ sellPrices st3 = sellPrices st
    /\ bottomPrices st3 = bottomPrices st
    /\ deref ref st3 = cp :: entriesOf symbol st
    /\ forall sentId,
        lastNotificationTimes (resume sentId) = lastNotificationTimes st3
        /\ sellPrices (resume sentId)
           = obj_set symbol
               {| entryPricesRef := ref;
                  sellPrice := Js.toFixed 8 (cp * (1011 # 1000));
                  messageId := sentId; buyTime := now |}
               (sellPrices st)
        /\ bottomPrices (resume sentId) = <[symbol := cp]> (bottomPrices st)
        /\ deref ref (resume sentId) = cp :: entriesOf symbol st.
Proof.
  unfold openPosition.
  set (st1 := with_lastNotificationTimes _ st).
  pose proof (ensureEntryArray_deref symbol st1) as Hd.
  assert (Hframe : lastNotificationTimes (ensureEntryArray symbol st1).2
                   = lastNotificationTimes st1
                   /\ sellPrices (ensureEntryArray symbol st1).2 = sellPrices st1
                   /\ bottomPrices (ensureEntryArray symbol st1).2 = bottomPrices st1).
  { unfold ensureEntryArray. destruct (entryPrices st1 !! symbol); cbn; auto. }
  destruct (ensureEntryArray symbol st1) as [ref st2]. cbn [fst snd] in Hd, Hframe.
  destruct Hframe as (Hl & Hs & Hb).
  change (entriesOf symbol st1) with (entriesOf symbol st) in Hd.
  rewrite deref_unshift, Hd. cbn [head default].
  eexists ref, _, _. split; [reflexivity |].
  cbn [lastNotificationTimes sellPrices bottomPrices unshift with_heap
       with_bottomPrices with_sellPrices].
  rewrite Hl, Hs, Hb.
  repeat split; try reflexivity.
  - fold (unshift ref cp st2). rewrite deref_unshift, Hd. reflexivity.
  - change (deref ref (unshift ref cp st2) = cp :: entriesOf symbol st).
    rewrite deref_unshift, Hd. reflexivity.
Qed.

(** When a detection sweep is raise-eligible. *)
Lemma raiseCondition_lastPrice (p15 p1 : list Q) :
  raiseCondition (calculateRSI p15) (calculateRSI p1) = true ->
  exists cp, lastPrice p1 = Some cp.
Proof.
  unfold raiseCondition. intros H.
  apply andb_prop in H as [_ H].
  destruct (calculateRSI p1) as [r|] eqn:E; [| discriminate H].
  apply lastPrice_nonempty.
  assert (Hn : calculateRSI p1 <> None) by congruence.
  rewrite calculateRSI_unavailable_iff in Hn. unfold RSI_PERIOD in Hn. lia.
Qed.

(** Every way [handleRSI] has of returning without a send leaves the
    cooldown stamps, the position records and the bottom prices alone and
    emits no new-signal notification. *)
Lemma handleRSI_start_Returned (s symbol : string) (inp : Fetched)
      (st st' : State) (events : list Event) :
  handleRSI_start s inp st = Returned st' events ->
  newSignals symbol events = 0%nat
  /\ lastNotificationTimes st' = lastNotificationTimes st
  /\ sellPrices st' = sellPrices st
  /\ bottomPrices st' = bottomPrices st.
Proof.
  unfold handleRSI_start, openPosition, updateExisting, unshift.
  break_match; intros [= <- <-]; cbn; auto.
Qed.

Lemma handleRSI_start_raise (symbol : string) (inp : Fetched) (st : State) :
  isActive symbol st = false ->
  raiseEligible inp = true ->
  cooldownActive symbol (currentTime inp) st = false ->
  exists cp r15 r1 b,
    handleRSI_start symbol inp st
    = openPosition symbol cp (currentTime inp)
        (LogRSIAndPrice symbol r15 r1 (Some cp)) (with_btc b st).
Proof.
  unfold isActive, raiseEligible, handleRSI_start.
  intros Hidle Hraise Hcool.
  destruct (calculateBTCChanges _ _ _) as [d b].
  destruct (prices15m inp) as [p15|]; [| discriminate].
  destruct (prices1m inp) as [p1|]; [| discriminate].
  destruct (raiseCondition_lastPrice _ _ Hraise) as [cp ->].
  cbn [sellPrices with_btc].
  destruct (obj_get symbol (sellPrices st)); [discriminate |].
  rewrite Hraise.
  change (cooldownActive symbol (currentTime inp) (with_btc b st))
    with (cooldownActive symbol (currentTime inp) st).
  rewrite Hcool. eauto.
Qed.

Lemma newSignals_raise (symbol : string) (r15 r1 cp : option Q)
      (entries : list Q) (target : Q) (info : option BtcData) :
  newSignals symbol
    ([LogRSIAndPrice symbol r15 r1 cp]
       ++ [SendTelegramMessage (BuySignal symbol entries target info)])
  = 1%nat.
Proof.
  unfold newSignals. cbn.
  rewrite bool_decide_eq_true_2 by reflexivity. reflexivity.
Qed.

(** A raise-eligible sweep on an idle symbol outside the cooldown sends
    one new-signal notification and stamps the symbol. *)
Lemma handleRSI_raise (symbol : string) (inp : Fetched) (st : State) :
  isActive symbol st = false ->
  raiseEligible inp = true ->
  cooldownActive symbol (currentTime inp) st = false ->
  newSignals symbol (handleRSI symbol inp st).2 = 1%nat
  /\ lastNotificationTimes (handleRSI symbol inp st).1 !! symbol
     = Some (currentTime inp).
Proof.
  intros Hidle Hraise Hcool.
  destruct (handleRSI_start_raise symbol inp st Hidle Hraise Hcool)
    as (cp & r15 & r1 & b & E).
  destruct (openPosition_spec symbol cp (currentTime inp)
              (LogRSIAndPrice symbol r15 r1 (Some cp)) (with_btc b st))
    as (ref & st3 & resume & E' & Hl & _ & _ & _ & Hres).
  unfold handleRSI. rewrite E, E'. cbn [fst snd].
  split; [apply newSignals_raise |].
  destruct (Hres (sent inp)) as (-> & _). rewrite Hl.
  apply lookup_insert_eq.
Qed.


(** The only way [handleRSI] reaches the send is the raise branch. *)
Lemma handleRSI_start_AwaitingSend (symbol : string) (inp : Fetched) (st st' : State)
      (events : list Event) (msg : Message) (resume : option Z -> State) :
  handleRSI_start symbol inp st = AwaitingSend st' events msg resume ->
  exists p15 p1 cp log b,
    prices15m inp = Some p15
    /\ prices1m inp = Some p1
    /\ lastPrice p1 = Some cp
    /\ obj_get symbol (sellPrices st) = None
    /\ raiseCondition (calculateRSI p15) (calculateRSI p1) = true
    /\ cooldownActive symbol (currentTime inp) st = false
    /\ openPosition symbol cp (currentTime inp) log (with_btc b st)
       = AwaitingSend st' events msg resume.
Proof.
  unfold handleRSI_start, updateExisting.
  destruct (calculateBTCChanges _ _ _) as [d b].
  change (cooldownActive symbol (currentTime inp) (with_btc b st))
    with (cooldownActive symbol (currentTime inp) st).
  cbn [sellPrices with_btc].
  destruct (prices15m inp) as [p15|]; [| discriminate].
  destruct (prices1m inp) as [p1|]; [| discriminate].
  destruct (lastPrice p1) as [cp|] eqn:Hlast; [| discriminate].
  destruct (obj_get symbol (sellPrices st)); [break_match; discriminate |].
  destruct (raiseCondition _ _) eqn:Hraise; [| discriminate].
  destruct (cooldownActive symbol (currentTime inp) st) eqn:Hcool; [discriminate |].
  intros Hopen. exists p15, p1, cp. eexists _, b.
  repeat (split; [first [reflexivity | assumption] |]).
  exact Hopen.
Qed.

(** On opening, the position's entry list is the current price in front
    of whatever the symbol's array already held. *)
Lemma handleRSI_open_entries (symbol : string) (inp : Fetched) (st : State) :
  isActive symbol st = false ->
  raiseEligible inp = true ->
  cooldownActive symbol (currentTime inp) st = false ->
  exists p1 cp,
    prices1m inp = Some p1
    /\ lastPrice p1 = Some cp
    /\ positionEntries symbol (handleRSI symbol inp st).1
       = Some (cp :: entriesOf symbol st).
Proof.
  intros Hidle Hraise Hcool.
  unfold handleRSI.
  destruct (handleRSI_start symbol inp st) as [st' ev | st' ev msg resume] eqn:E.
  - destruct (handleRSI_start_raise symbol inp st Hidle Hraise Hcool)
      as (cp & r15 & r1 & b & E0).
    destruct (openPosition_spec symbol cp (currentTime inp)
                (LogRSIAndPrice symbol r15 r1 (Some cp)) (with_btc b st))
      as (ref & st3 & resume & E' & _).
    congruence.
  - apply handleRSI_start_AwaitingSend in E.
    destruct E as (p15 & p1 & cp & log & b & _ & Hp1 & Hlast & _ & _ & _ & E).
    destruct (openPosition_spec symbol cp (currentTime inp) log (with_btc b st))
      as (ref & st3 & resume' & E' & _ & _ & _ & _ & Hres).
    rewrite E in E'. injection E' as _ _ _ ->.
    destruct (Hres (sent inp)) as (_ & Hs & _ & Hd).
    exists p1, cp. split; [exact Hp1 |]. split; [exact Hlast |].
    unfold positionEntries. cbn [fst]. rewrite Hs, obj_get_set_eq.
    cbn [entryPricesRef]. rewrite Hd. reflexivity.
Qed.

(** *** The target-check sweep *)

Lemma checkSymbol_frame (s : string) (obs : Observation) (st : State) :
  lastNotificationTimes (checkSymbol s obs st).1 = lastNotificationTimes st
  /\ (forall symbol, newSignals symbol (checkSymbol s obs st).2 = 0%nat)
  /\ (forall symbol,
        obj_get symbol (sellPrices (checkSymbol s obs st).1) = None
        \/ (obj_get symbol (sellPrices (checkSymbol s obs st).1)
             = obj_get symbol (sellPrices st)
            /\ bottomPrices (checkSymbol s obs st).1 !! symbol
               = bottomPrices st !! symbol)).
Proof.
  unfold checkSymbol, deleteOnLocalArray.
  break_match; cbn; repeat split; auto.
  intros symbol. destruct (decide (s = symbol)) as [->|Hne].
  - left. apply obj_get_delete_eq.
  - right. split; [apply obj_get_delete_ne | apply lookup_delete_ne]; exact Hne.
Qed.

Lemma checkLoop_frame (obs : string -> Observation) : forall symbols st,
  lastNotificationTimes (checkLoop symbols obs st).1 = lastNotificationTimes st
  /\ (forall symbol, newSignals symbol (checkLoop symbols obs st).2 = 0%nat)
  /\ (forall symbol,
        obj_get symbol (sellPrices (checkLoop symbols obs st).1) = None
        \/ (obj_get symbol (sellPrices (checkLoop symbols obs st).1)
             = obj_get symbol (sellPrices st)
            /\ bottomPrices (checkLoop symbols obs st).1 !! symbol
               = bottomPrices st !! symbol)).
Proof.
  induction symbols as [|s rest IH]; intros st; cbn [checkLoop].
  - cbn. auto.
  - destruct (checkSymbol_frame s (obs s) st) as (Hl & Hn & Hs).
    destruct (checkSymbol s (obs s) st) as [st1 e1]. cbn [fst snd] in *.
    destruct (IH st1) as (Hl' & Hn' & Hs').
    destruct (checkLoop rest obs st1) as [st2 e2]. cbn [fst snd] in *.
    split; [congruence |]. split.
    + intros symbol. rewrite newSignals_app, Hn, Hn'. reflexivity.
    + intros symbol.
      destruct (Hs' symbol) as [Hnone | [Hsame Hbot]]; [left; exact Hnone |].
      destruct (Hs symbol) as [Hnone | [Hsame0 Hbot0]].
      * left. congruence.
      * right. split; congruence.
Qed.

(** *** Steps and runs *)

(** A step keeps an open position's record as it is, or closes it. *)
Lemma step_position (op : Op) (symbol : string) (st : State) (pos : Position) :
  obj_get symbol (sellPrices st) = Some pos ->
  obj_get symbol (sellPrices (step op st).1) = Some pos
  \/ obj_get symbol (sellPrices (step op st).1) = None.
Proof.
  intros Hpos. destruct op as [s inp | obs]; cbn [step].
  - left. destruct (decide (s = symbol)) as [->|Hne].
    + rewrite handleRSI_sellPrices_active; [exact Hpos |].
      unfold isActive. rewrite Hpos. reflexivity.
    + rewrite handleRSI_sellPrices_other; [exact Hpos | exact Hne].
  - unfold checkTargetAchieved.
    destruct (checkLoop_frame obs (obj_keys (sellPrices st)) st) as (_ & _ & Hs).
    destruct (Hs symbol) as [Hnone | [Hsame _]]; [right; exact Hnone |].
    left. congruence.
Qed.



Lemma run_app (ops1 ops2 : list Op) : forall st,
  run (ops1 ++ ops2) st
  = ((run ops2 (run ops1 st).1).1, (run ops1 st).2 ++ (run ops2 (run ops1 st).1).2).
Proof.
  induction ops1 as [|op rest IH]; intros st; cbn [run app].
  - cbn [fst snd app]. destruct (run ops2 st); reflexivity.
  - destruct (step op st) as [st1 e1]. rewrite IH.
    destruct (run rest st1) as [st2 e2]. cbn [fst snd].
    rewrite app_assoc. reflexivity.
Qed.

(** While the position stays open along a run, its record is the one it
    started with. *)
Lemma run_position (symbol : string) (pos : Position) : forall (ops : list Op) (st : State),
  obj_get symbol (sellPrices st) = Some pos ->
  activeThroughout symbol ops st = true ->
  obj_get symbol (sellPrices (run ops st).1) = Some pos.
Proof.
  induction ops as [|op rest IH]; intros st Hpos Hact; cbn [run].
  - exact Hpos.
  - cbn [activeThroughout] in Hact. apply andb_prop in Hact as [Hnow Hrest].
    destruct (step_position op symbol st pos Hpos) as [Hsame | Hnone].
    + specialize (IH (step op st).1 Hsame Hrest).
      destruct (step op st) as [st1 e1]. cbn [fst] in *.
      destruct (run rest st1) as [st2 e2]. exact IH.
    + unfold isActive in Hnow. rewrite Hnone in Hnow. discriminate.
Qed.

Lemma activeThroughout_take (symbol : string) : forall (ops : list Op) (k : nat) (st : State),
  activeThroughout symbol ops st = true ->
  activeThroughout symbol (take k ops) st = true.
Proof.
  induction ops as [|op rest IH]; intros [|k] st Hact; cbn; try reflexivity.
  cbn [activeThroughout] in Hact. apply andb_prop in Hact as [Hnow Hrest].
  rewrite Hnow. cbn. apply IH. exact Hrest.
Qed.
(** *** The two references to an entry-price array *)

Lemma initial_aliased : aliased initial.
Proof. intros symbol pos H. discriminate H. Qed.

Lemma handleRSI_aliased (s : string) (inp : Fetched) (st : State) :
  aliased st -> aliased (handleRSI s inp st).1.
Proof.
  unfold aliased. intros HI symbol pos.
  unfold handleRSI, handleRSI_start, openPosition, updateExisting,
    ensureEntryArray, unshift.
  break_match; cbn; try (apply HI);
    repeat match goal with
           | H : (_, _) = (_, _) |- _ => injection H as <- <-
           end; cbn.
  - destruct (decide (s = symbol)) as [<-|Hne].
    + rewrite obj_get_set_eq. intros [= <-]. cbn. assumption.
    + rewrite obj_get_set_ne by exact Hne. apply HI.
  - destruct (decide (s = symbol)) as [<-|Hne].
    + rewrite obj_get_set_eq. intros [= <-]. cbn. apply lookup_insert_eq.
    + rewrite obj_get_set_ne by exact Hne.
      rewrite lookup_insert_ne by exact Hne. apply HI.
Qed.

Lemma checkSymbol_aliased (s : string) (obs : Observation) (st : State) :
  aliased st -> aliased (checkSymbol s obs st).1.
Proof.
  unfold aliased. intros HI symbol pos.
  unfold checkSymbol, deleteOnLocalArray.
  break_match; cbn; try (apply HI).
  destruct (decide (s = symbol)) as [<-|Hne].
  - rewrite obj_get_delete_eq. discriminate.
  - rewrite obj_get_delete_ne by exact Hne. apply HI.
Qed.

Lemma checkLoop_aliased (obs : string -> Observation) : forall symbols st,
  aliased st -> aliased (checkLoop symbols obs st).1.
Proof.
  induction symbols as [|s rest IH]; intros st HI; cbn [checkLoop].
  - exact HI.
  - pose proof (checkSymbol_aliased s (obs s) st HI) as H1.
    destruct (checkSymbol s (obs s) st) as [st1 e1]. cbn [fst] in H1.
    specialize (IH st1 H1).
    destruct (checkLoop rest obs st1) as [st2 e2]. exact IH.
Qed.

Lemma run_aliased : forall (ops : list Op) (st : State),
  aliased st -> aliased (run ops st).1.
Proof.
  induction ops as [|op rest IH]; intros st HI; cbn [run]; [exact HI |].
  assert (H1 : aliased (step op st).1).
  { destruct op as [s inp | obs]; cbn [step].
    - apply handleRSI_aliased; exact HI.
    - apply checkLoop_aliased; exact HI. }
  destruct (step op st) as [st1 e1]. cbn [fst] in H1.
  specialize (IH st1 H1).
  destruct (run rest st1) as [st2 e2]. exact IH.
Qed.

(** In every state the scheduler can reach, the entry list of an open
    position is the array [entryPrices[symbol]]. *)
Lemma reachable_positionEntries (ops : list Op) (symbol : string) :
  isActive symbol (run ops initial).1 = true ->
  positionEntries symbol (run ops initial).1
  = Some (entriesOf symbol (run ops initial).1).
Proof.
  pose proof (run_aliased ops initial initial_aliased symbol) as HI.
  unfold isActive, positionEntries, entriesOf.
  destruct (obj_get symbol (sellPrices (run ops initial).1)) as [pos|];
    [| discriminate].
  intros _. rewrite (HI pos eq_refl). reflexivity.
Qed.

End StrategyFacts.

(** ** [src/unnamed/part_000] *)

Module VariantFacts.
Import Variant.




Lemma variant_raiseCondition_lastPrice (p15 p1 : list Q) :
  raiseCondition (calculateRSI p15) (calculateRSI p1) = true ->
  exists cp, lastPrice p1 = Some cp.
Proof.
  unfold raiseCondition. intros H.
  apply andb_prop in H as [_ H].
  destruct (calculateRSI p1) as [r|] eqn:E; [| discriminate H].
  apply lastPrice_nonempty.
  assert (Hn : calculateRSI p1 <> None) by congruence.
  rewrite calculateRSI_unavailable_iff in Hn. unfold RSI_PERIOD in Hn. lia.
Qed.



(** The target-check of this variant lowers the stored bottom price to
    the observed price before it compares with the sell target. *)
Lemma updateBottom_min (symbol : string) (cp b : Q) (st : State) :
  bottomPrices st !! symbol = Some b ->
  bottomPrices (updateBottom symbol (Some cp) st) !! symbol
  = Some (if Js.lt cp b then cp else b).
Proof.
  intros Hb. unfold updateBottom. rewrite Hb. cbn [Js.ltU].
  destruct (Js.lt cp b); cbn; [apply lookup_insert_eq | exact Hb].
Qed.

Lemma variant_checkSymbol_bottom (symbol : string) (obs : Observation) (st : State)
      (pos : Position) (prices : list Q) (cp b : Q) :
  obj_get symbol (sellPrices st) = Some pos ->
  candles obs = Some prices ->
  lastPrice prices = Some cp ->
  bottomPrices st !! symbol = Some b ->
  let lowest := if Js.lt cp b then cp else b in
  if Js.ge cp (sellPrice pos)
  then exists pct duration info,
      (checkSymbol symbol obs st).2
      = [EditTelegramMessage (messageId pos)
           (TargetAchieved symbol [buyPrice pos] (sellPrice pos) (Some lowest)
              pct duration info)]
  else bottomPrices (checkSymbol symbol obs st).1 !! symbol = Some lowest.
Proof.
  intros Hpos Hc Hlast Hb lowest. unfold checkSymbol.
  rewrite Hpos, Hc, Hlast.
  destruct (calculateBTCChanges _ _ _) as [d bt].
  pose proof (updateBottom_min symbol cp b (with_btc bt st) Hb) as Hmin.
  cbn [Js.geU].
  destruct (Js.ge cp (sellPrice pos)); cbn [fst snd].
  - rewrite Hmin. eauto.
  - exact Hmin.
Qed.







End VariantFacts.

(** ** The position tracker and the notification gate *)

Import Strategy.

(** C7: the sell target a position gets when it is opened is the first
    entry price times 1.011 (to 8 decimals), and after any prefix of any run
    of detection sweeps and target-check sweeps along which the position
    stays open, the position still carries that sell target. *)
Theorem sellTarget_pinned (symbol : string) (inp : Fetched) (st0 : State)
        (pos : Position) (ops : list Op) (k : nat) :
  obj_get symbol (sellPrices st0) = None ->
  obj_get symbol (sellPrices (handleRSI symbol inp st0).1) = Some pos ->
  activeThroughout symbol ops (handleRSI symbol inp st0).1 = true ->
  (exists p1 firstEntry,
      prices1m inp = Some p1
      /\ lastPrice p1 = Some firstEntry
      /\ sellPrice pos = Js.toFixed 8 (firstEntry * (1011 # 1000)))
  /\ exists pos',
      obj_get symbol (sellPrices (run (take k ops) (handleRSI symbol inp st0).1).1)
      = Some pos'
      /\ sellPrice pos' = sellPrice pos.
Proof.
  intros Hidle Hopen Hact. split.
  - revert Hopen. unfold handleRSI.
    destruct (handleRSI_start symbol inp st0) as [st' ev | st' ev msg resume] eqn:E.
    + apply (StrategyFacts.handleRSI_start_Returned _ symbol) in E.
      destruct E as (_ & _ & Hs & _). cbn [fst]. rewrite Hs, Hidle. discriminate.
    + apply StrategyFacts.handleRSI_start_AwaitingSend in E.
      destruct E as (p15 & p1 & cp & log & b & _ & Hp1 & Hlast & _ & _ & _ & E).
      destruct (StrategyFacts.openPosition_spec symbol cp (currentTime inp) log
                  (with_btc b st0))
        as (ref & st3 & resume' & E' & _ & _ & _ & _ & Hres).
      rewrite E in E'. injection E' as _ _ _ ->.
      destruct (Hres (sent inp)) as (_ & Hs & _).
      cbn [fst]. rewrite Hs, obj_get_set_eq. intros [= <-].
      exists p1, cp. auto.
  - exists pos. split; [| reflexivity].
    apply StrategyFacts.run_position; [exact Hopen |].
    apply StrategyFacts.activeThroughout_take. exact Hact.
Qed.

Lemma sellTarget_pinned_witness :
  obj_get ABCUSDT (sellPrices initial) = None
  /\ activeThroughout ABCUSDT (tl averagingRun) opened100 = true
  /\ exists pos',
      obj_get ABCUSDT (sellPrices (run (take 1 (tl averagingRun)) opened100).1)
      = Some pos'
      /\ sellPrice pos' = Js.toFixed 8 (100 * (1011 # 1000)).
Proof.
  split; [reflexivity |]. split; [vm_compute; reflexivity |].
  exact (proj2 (sellTarget_pinned ABCUSDT (raiseAt 100 minute1000 (Some 7%Z)) initial
                 {| entryPricesRef := 0; sellPrice := Js.toFixed 8 (100 * (1011 # 1000));
                    messageId := Some 7%Z; buyTime := minute1000 |}
                 (tl averagingRun) 1
                 ltac:(reflexivity) ltac:(vm_compute; reflexivity)
                 ltac:(vm_compute; reflexivity))).
Defined.

(** A detection sweep whose 15-minute or 1-minute candle fetch failed
    (the request threw and [fetchCandlestickData] returned [null]) writes no
    log entry, sends and edits nothing, and leaves the position records, the
    entry prices, the bottom prices and the cooldown stamps exactly as they
    were -- in [src/strategy.js] and in the single-entry variant alike.  The
    reference-asset tracker is the one thing it changes: [calculateBTCChanges]
    has run before the test. *)
Theorem unavailable_sweep_is_silent :
  (forall (symbol : string) (inp : Fetched) (st : State),
      prices15m inp = None \/ prices1m inp = None ->
      (handleRSI symbol inp st).2 = []
      /\ sellPrices (handleRSI symbol inp st).1 = sellPrices st
      /\ entryPrices (handleRSI symbol inp st).1 = entryPrices st
      /\ heap (handleRSI symbol inp st).1 = heap st
      /\ bottomPrices (handleRSI symbol inp st).1 = bottomPrices st
      /\ lastNotificationTimes (handleRSI symbol inp st).1 = lastNotificationTimes st
      /\ btc (handleRSI symbol inp st).1
         = snd (calculateBTCChanges (btcResponse inp) (btcClock inp) (btc st)))
  /\ (forall (symbol : string) (inp : Fetched) (st : Variant.State),
      prices15m inp = None \/ prices1m inp = None ->
      (Variant.handleRSI symbol inp st).2 = []
      /\ Variant.sellPrices (Variant.handleRSI symbol inp st).1 = Variant.sellPrices st
      /\ Variant.bottomPrices (Variant.handleRSI symbol inp st).1
         = Variant.bottomPrices st
      /\ Variant.lastNotificationTimes (Variant.handleRSI symbol inp st).1
         = Variant.lastNotificationTimes st
      /\ Variant.btc (Variant.handleRSI symbol inp st).1
         = snd (calculateBTCChanges (btcResponse inp) (btcClock inp) (Variant.btc st))).
Proof.
  split; intros symbol inp st Hnone.
  - unfold handleRSI, handleRSI_start.
    destruct (calculateBTCChanges _ _ _) as [d b].
    destruct Hnone as [-> | ->]; [| destruct (prices15m inp)]; cbn; auto 10.
  - unfold Variant.handleRSI, Variant.handleRSI_start.
    destruct (calculateBTCChanges _ _ _) as [d b].
    destruct Hnone as [-> | ->]; [| destruct (prices15m inp)]; cbn; auto 10.
Qed.

Lemma unavailable_sweep_is_silent_witness :
  (prices15m (unavailableAt 95 (minute1000 + 20000)) = None
   \/ prices1m (unavailableAt 95 (minute1000 + 20000)) = None)
  /\ (handleRSI ABCUSDT (unavailableAt 95 (minute1000 + 20000)) opened100).2 = []
  /\ sellPrices (handleRSI ABCUSDT (unavailableAt 95 (minute1000 + 20000)) opened100).1
     = sellPrices opened100.
Proof.
  split; [left; reflexivity |].
  destruct (proj1 unavailable_sweep_is_silent ABCUSDT
              (unavailableAt 95 (minute1000 + 20000)) opened100
              (or_introl eq_refl))
    as (Hev & Hs & _).
  split; [exact Hev | exact Hs].
Defined.

(** C9: a fetch that returned too few closes is not treated as
    unavailable.  With a 15-minute sequence of two closes (no score:
    [calculateRSI] returns [null]) and a full 1-minute sequence, the sweep
    of an idle symbol passes the test [!prices15m || !prices1m], writes a
    log row, and -- [null < threshold] being true -- stamps the cooldown,
    sends a buy signal and opens a position, in [src/strategy.js] and in the
    single-entry variant alike; with an empty 1-minute sequence the sweep
    still writes its log row. *)
Theorem short_sequence_sweep_not_silent :
  prices15m (shortAt 100 minute1000 (Some 7%Z)) = Some [100; 101]
  /\ calculateRSI [100; 101] = None
  /\ (let r := handleRSI ABCUSDT (shortAt 100 minute1000 (Some 7%Z)) initial in
      rsiLogs r.2 = 1%nat
      /\ newSignals ABCUSDT r.2 = 1%nat
      /\ isActive ABCUSDT r.1 = true
      /\ positionEntries ABCUSDT r.1 = Some [100]
      /\ bottomPrices r.1 !! ABCUSDT = Some 100
      /\ lastNotificationTimes r.1 !! ABCUSDT = Some minute1000)
  /\ (let r := Variant.handleRSI ABCUSDT (shortAt 100 minute1000 (Some 7%Z))
                 Variant.initial in
      rsiLogs r.2 = 1%nat
      /\ newSignals ABCUSDT r.2 = 1%nat
      /\ obj_keys (Variant.sellPrices r.1) = [ABCUSDT]
      /\ Variant.bottomPrices r.1 !! ABCUSDT = Some 100
      /\ Variant.lastNotificationTimes r.1 !! ABCUSDT = Some minute1000)
  /\ (handleRSI ABCUSDT (emptyAt minute1000) initial).2
     = [LogRSIAndPrice ABCUSDT (calculateRSI (fallingTo 100)) None None]
  /\ (Variant.handleRSI ABCUSDT (emptyAt minute1000) Variant.initial).2
     = [LogRSIAndPrice ABCUSDT (calculateRSI (fallingTo 100)) None None].
Proof.
  vm_compute. auto 20.
Qed.





(** ** Where [src/strategy.js] departs from the specification *)

(** C1 on the code: after a signal at 100 is closed at 102 and the symbol is
    raised again at 90, the array [entryPrices[symbol]] was never removed
    (the [delete] in [checkTargetAchieved] acts on the shadowing local), so
    the new position's entry list is [90; 100], not [90]. *)
Theorem reopened_position_keeps_old_entries :
  isActive ABCUSDT (run (take 2 reopenRun) initial).1 = false
  /\ entriesOf ABCUSDT (run (take 2 reopenRun) initial).1 = [100]
  /\ isActive ABCUSDT (run reopenRun initial).1 = true
  /\ positionEntries ABCUSDT (run reopenRun initial).1 = Some [90; 100]
  /\ newSignals ABCUSDT (run reopenRun initial).2 = 2%nat.
Proof. vm_compute. repeat split; reflexivity. Qed.

(** C2 on the code: after a signal at 100 and an averaging-down sweep at
    95, the position holds the entries [95; 100] while the recorded bottom
    price is still 100, above their minimum. *)
Theorem bottom_above_averaged_entry :
  isActive ABCUSDT (run averagingRun initial).1 = true
  /\ positionEntries ABCUSDT (run averagingRun initial).1 = Some [95; 100]
  /\ bottomPrices (run averagingRun initial).1 !! ABCUSDT = Some 100
  /\ bottomBelowEntries ABCUSDT (run averagingRun initial).1 = false.
Proof. vm_compute. repeat split; reflexivity. Qed.

(** C3 on the code: a target-check sweep of [src/strategy.js] that observes
    95 on a position whose bottom price is 100 leaves the bottom price at
    100; the same observation in the single-entry variant lowers it to 95. *)
Theorem check_leaves_bottom_price :
  candles (observeAt 95 (minute1000 + 20000) ABCUSDT) = Some (risingTo 95)
  /\ lastPrice (risingTo 95) = Some 95
  /\ bottomPrices opened100 !! ABCUSDT = Some 100
  /\ isActive ABCUSDT (checkTargetAchieved (observeAt 95 (minute1000 + 20000)) opened100).1
     = true
  /\ bottomPrices (checkTargetAchieved (observeAt 95 (minute1000 + 20000)) opened100).1
       !! ABCUSDT = Some 100
  /\ Variant.bottomPrices variantOpened100 !! ABCUSDT = Some 100
  /\ Variant.bottomPrices
       (Variant.checkTargetAchieved (observeAt 95 (minute1000 + 20000))
          variantOpened100).1 !! ABCUSDT = Some 95.
Proof. vm_compute. repeat split; reflexivity. Qed.

(** The target-check sweep of [src/strategy.js] never writes a bottom
    price: a position that is still open after the sweep has the bottom
    price it had before. *)
Lemma check_never_lowers_bottom (obs : string -> Observation) (symbol : string)
      (st : State) :
  isActive symbol (checkTargetAchieved obs st).1 = true ->
  bottomPrices (checkTargetAchieved obs st).1 !! symbol = bottomPrices st !! symbol.
Proof.
  unfold checkTargetAchieved, isActive. intros Hact.
  destruct (StrategyFacts.checkLoop_frame obs (obj_keys (sellPrices st)) st)
    as (_ & _ & Hs).
  destruct (Hs symbol) as [Hnone | [_ Hbot]]; [| exact Hbot].
  rewrite Hnone in Hact. discriminate.
Qed.

(** * Further properties of the code *)

(** ** More on the indicator calculator *)

Lemma Js_gt_spec (a b : Q) : Js.gt a b = true <-> b < a.
Proof.
  unfold Js.gt, Js.lt. rewrite negb_true_iff.
  split.
  - intros H. apply Qnot_le_lt. intros Hle.
    apply Qle_bool_iff in Hle. congruence.
  - intros H. apply not_true_is_false. intros Hle.
    apply Qle_bool_iff in Hle. lra.
Qed.

Lemma Js_gt_false (a b : Q) : Js.gt a b = false <-> a <= b.
Proof.
  split.
  - intros H. apply Qnot_lt_le. intros Hlt.
    apply Js_gt_spec in Hlt. congruence.
  - intros H. apply not_true_is_false. intros Hgt.
    apply Js_gt_spec in Hgt. lra.
Qed.

Lemma rsi_loop_nonneg (prices : list Q) : forall (n i : nat) (g l : Q),
  0 <= g -> 0 <= l ->
  0 <= fst (rsi_loop prices i n g l) /\ 0 <= snd (rsi_loop prices i n g l).
Proof.
  induction n as [|n IH]; intros i g l Hg Hl; cbn [rsi_loop].
  - cbn. auto.
  - destruct (Js.gt _ 0) eqn:E.
    + apply Js_gt_spec in E. apply IH; lra.
    + apply Js_gt_false in E. apply IH; lra.
Qed.

(** Whenever [calculateRSI] returns a score, it lies between 0 and 100. *)
Theorem calculateRSI_range (prices : list Q) (score : Q) :
  calculateRSI prices = Some score ->
  0 <= score <= 100.
Proof.
  unfold calculateRSI, calculateRSI_period.
  destruct (length prices <? RSI_PERIOD)%nat; [discriminate |].
  change (RSI_PERIOD - 1)%nat with 13%nat.
  change (inject_Z (Z.of_nat RSI_PERIOD)) with 14.
  destruct (rsi_loop_nonneg prices 13 1 0 0 ltac:(lra) ltac:(lra)) as [Hg Hl].
  destruct (rsi_loop prices 1 13 0 0) as [g l]. cbn [fst snd] in Hg, Hl.
  destruct (Qeq_bool (l / 14) 0) eqn:E.
  - intros [= <-]. lra.
  - intros [= <-].
    assert (Hl' : 0 < l / 14).
    { apply Qeq_bool_neq in E.
      assert (0 <= l / 14) by (apply Qle_shift_div_l; lra).
      lra. }
    assert (Hrs : 0 <= g / 14 / (l / 14)).
    { apply Qle_shift_div_l; [exact Hl' |].
      assert (0 <= g / 14) by (apply Qle_shift_div_l; lra). lra. }
    set (rs := g / 14 / (l / 14)) in *.
    assert (0 <= 100 / (1 + rs)) by (apply Qle_shift_div_l; lra).
    assert (100 / (1 + rs) <= 100) by (apply Qle_shift_div_r; lra).
    lra.
Qed.

Lemma calculateRSI_range_witness :
  calculateRSI rising14_then_drop = Some 100 /\ 0 <= 100 <= 100.
Proof.
  split; [reflexivity |].
  apply (calculateRSI_range rising14_then_drop 100). reflexivity.
Defined.

(** The loop reads [prices[i - 1]], ..., [prices[i + n - 1]] and nothing
    else. *)
Lemma rsi_loop_ext (p q : list Q) : forall (n i : nat) (g l : Q),
  (1 <= i)%nat ->
  (forall j, (i - 1 <= j < i + n)%nat -> nth j p 0 = nth j q 0) ->
  rsi_loop p i n g l = rsi_loop q i n g l.
Proof.
  induction n as [|n IH]; intros i g l Hi Hsame; cbn [rsi_loop]; [reflexivity |].
  rewrite (Hsame i) by lia. rewrite (Hsame (i - 1)%nat) by lia.
  destruct (Js.gt _ 0); apply IH; try lia; intros j Hj; apply Hsame; lia.
Qed.

(** [calculateRSI] looks at the first 14 closes only: two sequences with
    the same first 14 closes get the same answer, so of the 15 closes
    [fetchCandlestickData] asks for, the most recent one never counts. *)
Theorem calculateRSI_first_14_closes (p q : list Q) :
  take 14 p = take 14 q ->
  calculateRSI p = calculateRSI q.
Proof.
  intros Htake.
  assert (Hlen : Nat.min 14 (length p) = Nat.min 14 (length q)).
  { rewrite <- !length_take. rewrite Htake. reflexivity. }
  unfold calculateRSI, calculateRSI_period, RSI_PERIOD.
  destruct (Nat.ltb_spec (length p) 14) as [Hp | Hp];
    destruct (Nat.ltb_spec (length q) 14) as [Hq | Hq]; try lia; [reflexivity |].
  change (14 - 1)%nat with 13%nat.
  rewrite (rsi_loop_ext p q 13 1 0 0); [reflexivity | lia |].
  intros j Hj.
  rewrite <- (take_drop 14 p), <- (take_drop 14 q), Htake.
  rewrite !app_nth1; [reflexivity | |]; rewrite length_take; lia.
Qed.

Lemma calculateRSI_first_14_closes_witness :
  take 14 rising14_then_drop = take 14 rising14
  /\ calculateRSI rising14_then_drop = calculateRSI rising14.
Proof.
  split; [reflexivity |].
  apply (calculateRSI_first_14_closes rising14_then_drop rising14). reflexivity.
Defined.

(** With no falling delta the loop leaves [losses] where it was; with no
    rising delta it leaves [gains] where it was and adds the whole fall to
    [losses]. *)
Lemma rsi_loop_neverFalls (prices : list Q) : forall (n i : nat) (g l : Q),
  (1 <= i)%nat ->
  (forall j, (i - 1 <= j < i + n - 1)%nat -> nth j prices 0 <= nth (S j) prices 0) ->
  snd (rsi_loop prices i n g l) == l.
Proof.
  induction n as [|n IH]; intros i g l Hi Hup; cbn [rsi_loop]; [reflexivity |].
  pose proof (Hup (i - 1)%nat ltac:(lia)) as H0.
  replace (S (i - 1)) with i in H0 by lia.
  destruct (Js.gt _ 0) eqn:E.
  - apply IH; [lia |]. intros j Hj. apply Hup. lia.
  - apply Js_gt_false in E.
    rewrite IH; [lra | lia |]. intros j Hj. apply Hup. lia.
Qed.

Lemma rsi_loop_neverRises (prices : list Q) : forall (n i : nat) (g l : Q),
  (1 <= i)%nat ->
  (forall j, (i - 1 <= j < i + n - 1)%nat -> nth (S j) prices 0 <= nth j prices 0) ->
  fst (rsi_loop prices i n g l) = g
  /\ snd (rsi_loop prices i n g l)
     == l + (nth (i - 1) prices 0 - nth (i + n - 1) prices 0).
Proof.
  induction n as [|n IH]; intros i g l Hi Hdown; cbn [rsi_loop].
  - cbn [fst snd]. split; [reflexivity |].
    replace (i + 0 - 1)%nat with (i - 1)%nat by lia. lra.
  - pose proof (Hdown (i - 1)%nat ltac:(lia)) as H0.
    replace (S (i - 1)) with i in H0 by lia.
    destruct (Js.gt _ 0) eqn:E.
    + apply Js_gt_spec in E. lra.
    + destruct (IH (S i) g (l - (nth i prices 0 - nth (i - 1) prices 0)) ltac:(lia))
        as [Hg Hl].
      { intros j Hj. apply Hdown. lia. }
      split; [exact Hg |]. rewrite Hl.
      replace (S i - 1)%nat with i by lia.
      replace (S i + n - 1)%nat with (i + S n - 1)%nat by lia. lra.
Qed.

(** When none of the first 14 closes is below its predecessor -- rising or
    flat prices alike -- there are no losses and the score is exactly
    100. *)
Theorem calculateRSI_neverFalls (prices : list Q) :
  (RSI_PERIOD <= length prices)%nat ->
  neverFalls prices ->
  calculateRSI prices = Some 100.
Proof.
  intros Hlen Hup.
  unfold calculateRSI, calculateRSI_period.
  destruct (Nat.ltb_spec (length prices) RSI_PERIOD) as [Hlt | _]; [lia |].
  change (RSI_PERIOD - 1)%nat with 13%nat.
  change (inject_Z (Z.of_nat RSI_PERIOD)) with 14.
  pose proof (rsi_loop_neverFalls prices 13 1 0 0 ltac:(lia)) as Hl.
  destruct (rsi_loop prices 1 13 0 0) as [g l]. cbn [snd] in Hl.
  assert (Hz : l == 0).
  { apply Hl. intros j Hj. apply Hup. lia. }
  assert (Hb : Qeq_bool (l / 14) 0 = true).
  { apply Qeq_bool_iff. rewrite Hz. reflexivity. }
  rewrite Hb. reflexivity.
Qed.

Lemma calculateRSI_neverFalls_witness :
  (RSI_PERIOD <= length flat14)%nat
  /\ neverFalls flat14
  /\ calculateRSI flat14 = Some 100.
Proof.
  assert (Hup : neverFalls flat14).
  { intros i Hi. do 13 (destruct i as [|i]; [vm_compute; discriminate |]). lia. }
  split; [vm_compute; lia |]. split; [exact Hup |].
  apply (calculateRSI_neverFalls flat14); [vm_compute; lia | exact Hup].
Defined.

(** When none of the first 14 closes is above its predecessor and the 14th
    is below the first, there are no gains and the score is 0. *)
Theorem calculateRSI_neverRises (prices : list Q) :
  (RSI_PERIOD <= length prices)%nat ->
  neverRises prices ->
  nth 13 prices 0 < nth 0 prices 0 ->
  exists score, calculateRSI prices = Some score /\ score == 0.
Proof.
  intros Hlen Hdown Hfall.
  unfold calculateRSI, calculateRSI_period.
  destruct (Nat.ltb_spec (length prices) RSI_PERIOD) as [Hlt | _]; [lia |].
  change (RSI_PERIOD - 1)%nat with 13%nat.
  change (inject_Z (Z.of_nat RSI_PERIOD)) with 14.
  destruct (rsi_loop_neverRises prices 13 1 0 0 ltac:(lia)) as [Hg Hl].
  { intros j Hj. apply Hdown. lia. }
  destruct (rsi_loop prices 1 13 0 0) as [g l]. cbn [fst snd] in Hg, Hl.
  subst g. change (1 - 1)%nat with 0%nat in Hl. change (1 + 13 - 1)%nat with 13%nat in Hl.
  assert (Hpos : 0 < l / 14).
  { apply Qlt_shift_div_l; lra. }
  destruct (Qeq_bool (l / 14) 0) eqn:E.
  - apply Qeq_bool_iff in E. lra.
  - eexists. split; [reflexivity |].
    field_simplify_eq; [reflexivity |].
    intros H. rewrite H in Hpos. vm_compute in Hpos. discriminate.
Qed.

Lemma calculateRSI_neverRises_witness :
  (RSI_PERIOD <= length (fallingTo 100))%nat
  /\ neverRises (fallingTo 100)
  /\ nth 13 (fallingTo 100) 0 < nth 0 (fallingTo 100) 0
  /\ exists score, calculateRSI (fallingTo 100) = Some score /\ score == 0.
Proof.
  assert (Hdown : neverRises (fallingTo 100)).
  { intros i Hi. do 13 (destruct i as [|i]; [vm_compute; discriminate |]). lia. }
  split; [vm_compute; lia |]. split; [exact Hdown |].
  split; [vm_compute; reflexivity |].
  apply (calculateRSI_neverRises (fallingTo 100));
    [vm_compute; lia | exact Hdown | vm_compute; reflexivity].
Defined.

(** ** More on the reference asset tracker *)

(** On a buffer kept oldest first, the eviction loop removes exactly the
    samples older than the cutoff. *)
Theorem evictBefore_notBefore (cutoff : Z) : forall history : list Sample,
  oldestFirst history ->
  evictBefore cutoff history = notBefore cutoff history.
Proof.
  unfold oldestFirst, notBefore.
  induction history as [|e rest IH]; intros Hs; [reflexivity |].
  inversion Hs as [|? ? Hrest Hall]; subst.
  cbn [evictBefore List.filter].
  destruct (isBefore (timestamp e) cutoff) eqn:E; cbn [negb]; [apply IH; exact Hrest |].
  f_equal. symmetry. apply forallb_filter_id.
  apply forallb_forall. intros s Hin.
  rewrite Forall_forall in Hall.
  assert (Hle : (timestamp e <= timestamp s)%Z)
    by (apply Hall, list_elem_of_In; exact Hin).
  unfold isBefore in *. apply negb_true_iff.
  apply Z.ltb_ge. apply Z.ltb_ge in E. lia.
Qed.

Lemma evictBefore_notBefore_witness :
  oldestFirst buffer_35_20_5
  /\ evictBefore (minute100 - minutes 31) buffer_35_20_5
     = notBefore (minute100 - minutes 31) buffer_35_20_5.
Proof.
  assert (Hs : oldestFirst buffer_35_20_5).
  { repeat constructor; vm_compute; discriminate. }
  split; [exact Hs |].
  apply (evictBefore_notBefore (minute100 - minutes 31) buffer_35_20_5 Hs).
Defined.

(** Whatever the ticker fetch returns, a call stamped no earlier than the
    samples already held leaves the buffer oldest first and free of samples
    stamped after the call. *)
Theorem calculateBTCChanges_trackerOk (response : option Q) (clk : BtcClock)
        (now : Z) (b : BtcState) :
  trackerOk now b ->
  (now <= tPush clk)%Z ->
  trackerOk (tPush clk) (snd (calculateBTCChanges response clk b)).
Proof.
  intros [Hs Hb] Hnow.
  assert (Hkeep : trackerOk (tPush clk) b).
  { split; [exact Hs |]. intros s Hin. specialize (Hb s Hin). lia. }
  unfold calculateBTCChanges, fetchBTCPrice.
  destruct response as [p|]; [| exact Hkeep].
  set (pushed := btcPriceHistory b ++ [{| price := p; timestamp := tPush clk |}]).
  assert (Hok : trackerOk (tPush clk)
                  {| lastBTCPrice := lastBTCPrice b;
                     btcPriceHistory := evictBefore (tTrim clk - minutes 31) pushed |}).
  { split; cbn [btcPriceHistory].
    - apply evictBefore_oldestFirst, push_oldestFirst; [exact Hs |].
      intros s Hin. specialize (Hb s Hin). cbn. lia.
    - intros s Hin. apply evictBefore_In in Hin.
      apply in_app_or in Hin as [Hin | [<- | []]]; [| cbn; lia].
      specialize (Hb s Hin). lia. }
  destruct (Js.truthy (Some p)); cbn [snd]; [| exact Hok].
  destruct Hok as [Ho Hb']. split; assumption.
Qed.

Lemma calculateBTCChanges_trackerOk_witness :
  trackerOk minute100 tracker_30_20_5
  /\ (minute100 <= tPush (clockAt (minute100 + 20000)))%Z
  /\ trackerOk (minute100 + 20000)
       (snd (calculateBTCChanges (Some 103) (clockAt (minute100 + 20000))
               tracker_30_20_5)).
Proof.
  assert (Hok : trackerOk minute100 tracker_30_20_5).
  { split.
    - repeat constructor; vm_compute; discriminate.
    - intros s [<- | [<- | [<- | []]]]; vm_compute; discriminate. }
  assert (Hnow : (minute100 <= tPush (clockAt (minute100 + 20000)))%Z)
    by (vm_compute; discriminate).
  split; [exact Hok |]. split; [exact Hnow |].
  exact (calculateBTCChanges_trackerOk (Some 103) (clockAt (minute100 + 20000))
           minute100 tracker_30_20_5 Hok Hnow).
Defined.

Lemma evictBefore_keeps_last (cutoff : Z) (s : Sample) : forall history,
  isBefore (timestamp s) cutoff = false ->
  last (evictBefore cutoff (history ++ [s])) = Some s.
Proof.
  intros history Hfresh.
  induction history as [|e rest IH]; cbn [app evictBefore].
  - rewrite Hfresh. reflexivity.
  - destruct (isBefore (timestamp e) cutoff); [exact IH |].
    change (e :: rest ++ [s]) with ((e :: rest) ++ [s]).
    apply last_snoc.
Qed.

(** After a successful fetch read off one clock, the fetched price is the
    newest sample of the buffer, and no sample the buffer keeps is more than
    31 minutes old. *)
Theorem fetchBTCPrice_window (cur : Q) (t : Z) (b : BtcState) :
  trackerOk t b ->
  let result := fetchBTCPrice (Some cur) (clockAt t) b in
  fst result = Some cur
  /\ last (btcPriceHistory (snd result)) = Some {| price := cur; timestamp := t |}
  /\ forall s, In s (btcPriceHistory (snd result)) ->
               (0 <= ageAt t s <= minutes 31)%Z.
Proof.
  intros [Hs Hb] result. subst result.
  unfold fetchBTCPrice. cbn [fst snd btcPriceHistory tPush tTrim clockAt].
  split; [reflexivity |]. split.
  - apply evictBefore_keeps_last. cbn. unfold isBefore, minutes.
    apply Z.ltb_ge. lia.
  - intros s Hin.
    assert (Hsorted : oldestFirst
                        (btcPriceHistory b ++ [{| price := cur; timestamp := t |}])).
    { apply push_oldestFirst; [exact Hs | exact Hb]. }
    pose proof (evictBefore_retained _ _ _ Hsorted Hin) as Hcut.
    apply evictBefore_In in Hin.
    assert (Hle : (timestamp s <= t)%Z).
    { apply in_app_or in Hin as [Hin | [<- | []]]; [apply Hb; exact Hin | cbn; lia]. }
    unfold ageAt. lia.
Qed.

Lemma fetchBTCPrice_window_witness :
  trackerOk minute100 tracker_30_20_5
  /\ last (btcPriceHistory (snd (fetchBTCPrice (Some 103) (clockAt minute100)
                                  tracker_30_20_5)))
     = Some {| price := 103; timestamp := minute100 |}.
Proof.
  assert (Hok : trackerOk minute100 tracker_30_20_5).
  { split.
    - repeat constructor; vm_compute; discriminate.
    - intros s [<- | [<- | [<- | []]]]; vm_compute; discriminate. }
  split; [exact Hok |].
  exact (proj1 (proj2 (fetchBTCPrice_window 103 minute100 tracker_30_20_5 Hok))).
Defined.

(** A fetch that fails or returns a zero price is reported as "no data" in
    all three fields and leaves the last recorded price alone (a failed
    fetch leaves the whole tracker alone); any other fetch is reported with
    its price and becomes the last recorded price. *)
Theorem calculateBTCChanges_availability (response : option Q) (clk : BtcClock)
        (b : BtcState) :
  let result := calculateBTCChanges response clk b in
  if Js.truthy response
  then btcPrice (fst result) = response /\ lastBTCPrice (snd result) = response
  else fst result = noData
       /\ lastBTCPrice (snd result) = lastBTCPrice b
       /\ (response = None -> snd result = b).
Proof.
  unfold calculateBTCChanges, fetchBTCPrice.
  destruct response as [p|]; cbn [Js.truthy].
  - destruct (negb (Qeq_bool p 0)); cbn; auto.
    repeat split. discriminate.
  - cbn. auto.
Qed.

(** Fetches that fail or return a zero price leave the last recorded
    price as it is. *)
Lemma polls_keep_last (lastp : Q) : forall fetches b,
  lastBTCPrice b = Some lastp ->
  Forall (fun f : option Q * BtcClock => Js.truthy f.1 = false) fetches ->
  lastBTCPrice (polls fetches b) = Some lastp.
Proof.
  unfold polls.
  induction fetches as [|[response clk] rest IH]; intros b Hlast Hall; [exact Hlast |].
  inversion Hall as [|? ? Hfalsy Hrest]; subst. cbn [fst] in Hfalsy.
  cbn [fold_left]. apply IH; [| exact Hrest].
  cbn [fst snd]. unfold calculateBTCChanges, fetchBTCPrice.
  destruct response as [p|]; [| exact Hlast].
  rewrite Hfalsy. exact Hlast.
Qed.

(** Once a non-zero price has been recorded it is never forgotten: after
    any number of failed or zero fetches it is still the recorded price; one
    more such fetch keeps it and reports no change; the next non-zero fetch
    reports its change against it and takes its place. *)
Theorem calculateBTCChanges_keeps_last (fetches : list (option Q * BtcClock))
        (response : option Q) (clk : BtcClock) (b : BtcState) (lastp : Q) :
  lastBTCPrice b = Some lastp ->
  Js.truthy (Some lastp) = true ->
  Forall (fun f : option Q * BtcClock => Js.truthy f.1 = false) fetches ->
  let b' := polls fetches b in
  let result := calculateBTCChanges response clk b' in
  lastBTCPrice b' = Some lastp
  /\ (Js.truthy response = false ->
      lastBTCPrice (snd result) = Some lastp /\ change (fst result) = None)
  /\ (forall cur, response = Some cur -> Js.truthy (Some cur) = true ->
                  change (fst result) = Some (percentChange cur lastp)
                  /\ lastBTCPrice (snd result) = Some cur).
Proof.
  intros Hlast Htruthy Hfalsy b' result.
  assert (Hkept : lastBTCPrice b' = Some lastp)
    by (apply polls_keep_last; assumption).
  split; [exact Hkept |].
  subst result. unfold calculateBTCChanges, fetchBTCPrice.
  destruct response as [p|].
  - split.
    + intros ->. cbn [fst snd lastBTCPrice change]. auto.
    + intros cur [= <-] ->. cbn [fst snd lastBTCPrice change].
      rewrite Hkept, Htruthy. auto.
  - split; [cbn; auto | discriminate].
Qed.

Lemma calculateBTCChanges_keeps_last_witness :
  lastBTCPrice tracker_30_20_5 = Some 102
  /\ Js.truthy (Some 102) = true
  /\ Forall (fun f : option Q * BtcClock => Js.truthy f.1 = false) failedThenZero
  /\ lastBTCPrice (polls failedThenZero tracker_30_20_5) = Some 102
  /\ change (fst (calculateBTCChanges (Some 103) (clockAt (minute100 + 60000))
                    (polls failedThenZero tracker_30_20_5)))
     = Some (percentChange 103 102).
Proof.
  assert (Hf : Forall (fun f : option Q * BtcClock => Js.truthy f.1 = false)
                 failedThenZero)
    by (repeat constructor).
  split; [reflexivity |]. split; [reflexivity |]. split; [exact Hf |].
  destruct (calculateBTCChanges_keeps_last failedThenZero (Some 103)
              (clockAt (minute100 + 60000)) tracker_30_20_5 102 eq_refl eq_refl Hf)
    as (Hkept & _ & Hnext).
  split; [exact Hkept |].
  exact (proj1 (Hnext 103 eq_refl eq_refl)).
Defined.

(** ** More on [src/strategy.js] *)

Module StrategyMore.
Import Strategy.

(** *** The trackers stay consistent *)

Lemma storeOk_unshift (ref : nat) (x : Q) (st : State) :
  storeOk st -> storeOk (unshift ref x st).
Proof.
  intros [Hdom Hinj]. split; cbn [unshift with_heap entryPrices heap].
  - intros s r Hr. destruct (decide (r = ref)) as [->|Hne].
    + rewrite lookup_insert_eq. eauto.
    + rewrite lookup_insert_ne by congruence. eapply Hdom; eauto.
  - exact Hinj.
Qed.

Lemma storeOk_ensureEntryArray (symbol : string) (st : State) :
  storeOk st ->
  storeOk (ensureEntryArray symbol st).2
  /\ entryPrices (ensureEntryArray symbol st).2 !! symbol
     = Some (ensureEntryArray symbol st).1.
Proof.
  intros [Hdom Hinj]. unfold ensureEntryArray.
  destruct (entryPrices st !! symbol) as [ref|] eqn:E; cbn [fst snd].
  - split; [split; assumption | exact E].
  - set (r0 := fresh (dom (heap st))).
    assert (Hfresh : heap st !! r0 = None).
    { apply not_elem_of_dom. apply is_fresh. }
    unfold storeOk. cbn [fst snd entryPrices heap with_entryPrices with_heap].
    fold r0.
    split; [split |].
    + intros s r Hr. destruct (decide (s = symbol)) as [->|Hne].
      * rewrite lookup_insert_eq in Hr. injection Hr as <-.
        rewrite lookup_insert_eq. eauto.
      * rewrite lookup_insert_ne in Hr by congruence.
        destruct (decide (r = r0)) as [->|Hr0].
        -- rewrite lookup_insert_eq. eauto.
        -- rewrite lookup_insert_ne by congruence. eapply Hdom; eauto.
    + intros s1 s2 r H1 H2.
      destruct (decide (s1 = symbol)) as [->|Hne1];
        destruct (decide (s2 = symbol)) as [->|Hne2]; try reflexivity.
      * rewrite lookup_insert_eq in H1. injection H1 as <-.
        rewrite lookup_insert_ne in H2 by congruence.
        destruct (Hdom _ _ H2) as [v Hv]. congruence.
      * rewrite lookup_insert_eq in H2. injection H2 as <-.
        rewrite lookup_insert_ne in H1 by congruence.
        destruct (Hdom _ _ H1) as [v Hv]. congruence.
      * rewrite lookup_insert_ne in H1, H2 by congruence. eapply Hinj; eauto.
    + apply lookup_insert_eq.
Qed.

Lemma storeOk_ext (st st' : State) :
  entryPrices st' = entryPrices st -> heap st' = heap st ->
  storeOk st -> storeOk st'.
Proof. unfold storeOk. intros -> ->. auto. Qed.

Lemma handleRSI_storeOk (s : string) (inp : Fetched) (st : State) :
  storeOk st -> storeOk (handleRSI s inp st).1.
Proof.
  intros Hok.
  unfold handleRSI, handleRSI_start, openPosition, updateExisting.
  break_match; cbn [fst];
    try (eapply storeOk_ext; [| | exact Hok]; reflexivity).
  - apply storeOk_unshift. eapply storeOk_ext; [| | exact Hok]; reflexivity.
  - eapply storeOk_ext; [reflexivity | reflexivity |].
    apply storeOk_unshift.
    match goal with
    | H : ensureEntryArray ?sym ?s0 = _ |- _ =>
        pose proof (proj1 (storeOk_ensureEntryArray sym s0
                             ltac:(eapply storeOk_ext; [| | exact Hok]; reflexivity)))
          as Hens;
        rewrite H in Hens
    end.
    exact Hens.
Qed.

Lemma handleRSI_tracked (s : string) (inp : Fetched) (st : State) :
  tracked st -> tracked (handleRSI s inp st).1.
Proof.
  intros Ht symbol. unfold handleRSI, isActive.
  destruct (handleRSI_start s inp st) as [st' ev | st' ev msg resume] eqn:E; cbn [fst].
  - apply (StrategyFacts.handleRSI_start_Returned _ symbol) in E.
    destruct E as (_ & _ & -> & ->). apply Ht.
  - apply StrategyFacts.handleRSI_start_AwaitingSend in E.
    destruct E as (p15 & p1 & cp & log & b & _ & _ & _ & _ & _ & _ & E).
    destruct (StrategyFacts.openPosition_spec s cp (currentTime inp) log (with_btc b st))
      as (ref & st3 & resume' & E' & _ & _ & _ & _ & Hres).
    rewrite E in E'. injection E' as _ _ _ ->.
    destruct (Hres (sent inp)) as (_ & -> & -> & _).
    cbn [sellPrices bottomPrices with_btc].
    destruct (decide (s = symbol)) as [->|Hne].
    + rewrite obj_get_set_eq, lookup_insert_eq. split; eauto.
    + rewrite obj_get_set_ne, lookup_insert_ne by exact Hne. apply Ht.
Qed.

Lemma entriesNonEmpty_ext (st st' : State) :
  sellPrices st' = sellPrices st -> heap st' = heap st ->
  entriesNonEmpty st -> entriesNonEmpty st'.
Proof. unfold entriesNonEmpty. intros -> ->. auto. Qed.

Lemma entriesNonEmpty_unshift (ref : nat) (x : Q) (st : State) :
  entriesNonEmpty st -> entriesNonEmpty (unshift ref x st).
Proof.
  intros Hne symbol pos Hpos. cbn [unshift with_heap heap sellPrices] in *.
  destruct (decide (entryPricesRef pos = ref)) as [->|Hr].
  - rewrite lookup_insert_eq. eauto.
  - rewrite lookup_insert_ne by congruence. eapply Hne; eauto.
Qed.

Lemma entriesNonEmpty_ensureEntryArray (symbol : string) (st : State) :
  entriesNonEmpty st -> entriesNonEmpty (ensureEntryArray symbol st).2.
Proof.
  intros Hne. unfold ensureEntryArray.
  destruct (entryPrices st !! symbol); cbn [snd]; [exact Hne |].
  intros s pos Hpos. cbn [heap sellPrices with_entryPrices with_heap] in *.
  destruct (Hne s pos Hpos) as (x & rest & Hx).
  rewrite lookup_insert_ne; [eauto |].
  intros Heq.
  assert (Hfresh : heap st !! fresh (dom (heap st)) = None)
    by (apply not_elem_of_dom, is_fresh).
  rewrite Heq in Hfresh. congruence.
Qed.

Lemma handleRSI_entriesNonEmpty (s : string) (inp : Fetched) (st : State) :
  entriesNonEmpty st -> entriesNonEmpty (handleRSI s inp st).1.
Proof.
  intros Hok.
  unfold handleRSI, handleRSI_start, openPosition, updateExisting.
  break_match; cbn [fst];
    try (eapply entriesNonEmpty_ext; [| | exact Hok]; reflexivity).
  - apply entriesNonEmpty_unshift.
    eapply entriesNonEmpty_ext; [| | exact Hok]; reflexivity.
  - match goal with
    | H : ensureEntryArray ?sym ?s0 = _ |- _ =>
        pose proof (entriesNonEmpty_ensureEntryArray sym s0
                      ltac:(eapply entriesNonEmpty_ext; [| | exact Hok]; reflexivity))
          as Hens;
        rewrite H in Hens; cbn [snd] in Hens
    end.
    intros symbol pos.
    cbn [sellPrices heap with_bottomPrices with_sellPrices].
    destruct (decide (s = symbol)) as [->|Hne].
    + rewrite obj_get_set_eq. intros [= <-]. cbn [entryPricesRef unshift with_heap heap].
      rewrite lookup_insert_eq. eauto.
    + rewrite obj_get_set_ne by exact Hne.
      apply (entriesNonEmpty_unshift _ _ _ Hens).
Qed.

Lemma checkSymbol_store (s : string) (obs : Observation) (st : State) :
  entryPrices (checkSymbol s obs st).1 = entryPrices st
  /\ heap (checkSymbol s obs st).1 = heap st.
Proof. unfold checkSymbol, deleteOnLocalArray. break_match; cbn; auto. Qed.

(** One iteration of the target-check either leaves the trackers as they
    are or deletes the record and the bottom price of its symbol. *)
Lemma checkSymbol_state (s : string) (obs : Observation) (st : State) :
  (checkSymbol s obs st).1
  = match obj_get s (sellPrices st) with
    | Some pos => if reachesTarget obs pos then closed s st else st
    | None => st
    end.
Proof.
  unfold checkSymbol, reachesTarget, closed, deleteOnLocalArray.
  destruct (obj_get s (sellPrices st)) as [pos|]; [| reflexivity].
  destruct (candles obs) as [prices|]; [| reflexivity].
  destruct (Js.geU _ _); reflexivity.
Qed.

Lemma closed_consistent (s : string) (st : State) :
  consistent st -> consistent (closed s st).
Proof.
  intros (Ha & Hs & Ht & Hn). unfold closed. repeat split.
  - intros symbol pos. cbn. destruct (decide (s = symbol)) as [->|Hne].
    + rewrite obj_get_delete_eq. discriminate.
    + rewrite obj_get_delete_ne by exact Hne. apply Ha.
  - apply Hs.
  - apply Hs.
  - unfold isActive. cbn. destruct (decide (s = symbol)) as [->|Hne].
    + rewrite obj_get_delete_eq. discriminate.
    + rewrite obj_get_delete_ne, lookup_delete_ne by exact Hne. apply Ht.
  - unfold isActive. cbn. destruct (decide (s = symbol)) as [->|Hne].
    + rewrite lookup_delete_eq. intros [? ?]; discriminate.
    + rewrite obj_get_delete_ne, lookup_delete_ne by exact Hne. apply Ht.
  - intros symbol pos. cbn. destruct (decide (s = symbol)) as [->|Hne].
    + rewrite obj_get_delete_eq. discriminate.
    + rewrite obj_get_delete_ne by exact Hne. apply Hn.
Qed.

Lemma checkSymbol_consistent (s : string) (obs : Observation) (st : State) :
  consistent st -> consistent (checkSymbol s obs st).1.
Proof.
  intros HI. rewrite checkSymbol_state.
  destruct (obj_get s (sellPrices st)) as [pos|]; [| exact HI].
  destruct (reachesTarget obs pos); [apply closed_consistent |]; exact HI.
Qed.

Lemma checkLoop_consistent (obs : string -> Observation) : forall symbols st,
  consistent st -> consistent (checkLoop symbols obs st).1.
Proof.
  induction symbols as [|s rest IH]; intros st HI; cbn [checkLoop]; [exact HI |].
  pose proof (checkSymbol_consistent s (obs s) st HI) as H1.
  destruct (checkSymbol s (obs s) st) as [st1 e1]. cbn [fst] in H1.
  specialize (IH st1 H1).
  destruct (checkLoop rest obs st1) as [st2 e2]. exact IH.
Qed.

Lemma step_consistent (op : Op) (st : State) :
  consistent st -> consistent (step op st).1.
Proof.
  destruct op as [s inp | obs]; cbn [step].
  - intros (Ha & Hs & Ht & Hn). repeat split.
    + apply StrategyFacts.handleRSI_aliased; exact Ha.
    + apply handleRSI_storeOk; exact Hs.
    + apply handleRSI_storeOk; exact Hs.
    + apply handleRSI_tracked; exact Ht.
    + apply handleRSI_tracked; exact Ht.
    + apply handleRSI_entriesNonEmpty; exact Hn.
  - apply checkLoop_consistent.
Qed.

Lemma run_consistent : forall (ops : list Op) (st : State),
  consistent st -> consistent (run ops st).1.
Proof.
  induction ops as [|op rest IH]; intros st HI; cbn [run]; [exact HI |].
  pose proof (step_consistent op st HI) as H1.
  destruct (step op st) as [st1 e1]. cbn [fst] in H1.
  specialize (IH st1 H1).
  destruct (run rest st1) as [st2 e2]. exact IH.
Qed.

Lemma initial_consistent : consistent initial.
Proof.
  split; [apply StrategyFacts.initial_aliased |].
  split; [split; intros * H; cbn in H; rewrite lookup_empty in H; discriminate |].
  split.
  - intros symbol. unfold isActive. cbn. rewrite lookup_empty.
    split; [discriminate | intros [? ?]; discriminate].
  - intros symbol pos H. discriminate H.
Qed.
End StrategyMore.

(** *** Invariants of the reachable states *)

(** In every state the scheduler can reach from the empty trackers: a
    symbol has a position exactly when it has a bottom price; the entry
    list of an open position is non-empty and is the array
    [entryPrices[symbol]]; and no other symbol shares that array. *)
Theorem reachable_consistent (ops : list Op) (symbol : string) :
  let st := (run ops initial).1 in
  (isActive symbol st = true <-> is_Some (bottomPrices st !! symbol))
  /\ (isActive symbol st = true ->
      exists x rest,
        positionEntries symbol st = Some (x :: rest)
        /\ entriesOf symbol st = x :: rest)
  /\ (forall other ref,
         entryPrices st !! symbol = Some ref ->
         entryPrices st !! other = Some ref -> other = symbol).
Proof.
  intros st.
  destruct (StrategyMore.run_consistent ops initial StrategyMore.initial_consistent)
    as (Ha & [_ Hinj] & Ht & Hn).
  fold st in Ha, Hinj, Ht, Hn.
  split; [apply Ht |]. split.
  - unfold isActive, positionEntries, entriesOf, deref.
    destruct (obj_get symbol (sellPrices st)) as [pos|] eqn:Hpos; [| discriminate].
    intros _. destruct (Hn symbol pos Hpos) as (x & rest & Hx).
    exists x, rest. rewrite (Ha symbol pos Hpos), Hx. auto.
  - intros other ref H1 H2. eapply Hinj; eauto.
Qed.

Lemma throws_app (e1 e2 : list Event) : throws (e1 ++ e2) = (throws e1 + throws e2)%nat.
Proof. unfold throws. rewrite List.filter_app, length_app. reflexivity. Qed.

Lemma handleRSI_throws (s : string) (inp : Fetched) (st : State) :
  aliased st -> throws (handleRSI s inp st).2 = 0%nat.
Proof.
  intros Ha. unfold handleRSI, handleRSI_start, openPosition, updateExisting.
  break_match; cbn; try reflexivity.
  exfalso.
  match goal with
  | H : obj_get s _ = Some ?p |- _ => pose proof (Ha s p H) as Href
  end.
  cbn in *. congruence.
Qed.

Lemma checkLoop_throws (obs : string -> Observation) : forall symbols st,
  throws (checkLoop symbols obs st).2 = 0%nat.
Proof.
  induction symbols as [|s rest IH]; intros st; cbn [checkLoop]; [reflexivity |].
  assert (H1 : throws (checkSymbol s (obs s) st).2 = 0%nat).
  { unfold checkSymbol. break_match; reflexivity. }
  destruct (checkSymbol s (obs s) st) as [st1 e1]. cbn [snd] in H1.
  specialize (IH st1).
  destruct (checkLoop rest obs st1) as [st2 e2]. cbn [snd] in *.
  rewrite throws_app, H1, IH. reflexivity.
Qed.

Lemma run_throws : forall (ops : list Op) (st : State),
  aliased st -> throws (run ops st).2 = 0%nat.
Proof.
  induction ops as [|op rest IH]; intros st Ha; cbn [run]; [reflexivity |].
  assert (H1 : throws (step op st).2 = 0%nat /\ aliased (step op st).1).
  { destruct op as [s inp | obs]; cbn [step].
    - split; [apply handleRSI_throws | apply StrategyFacts.handleRSI_aliased]; exact Ha.
    - split; [apply checkLoop_throws | apply StrategyFacts.checkLoop_aliased; exact Ha]. }
  destruct (step op st) as [st1 e1]. cbn [fst snd] in H1. destruct H1 as [H1 Ha1].
  specialize (IH st1 Ha1).
  destruct (run rest st1) as [st2 e2]. cbn [snd] in *.
  rewrite throws_app, H1, IH. reflexivity.
Qed.

(** No sweep of any run from the empty trackers throws: the read of
    [entryPrices[symbol].length] in the averaging-down test always finds an
    array. *)
Theorem run_never_throws (ops : list Op) :
  throws (run ops initial).2 = 0%nat.
Proof. apply run_throws. apply StrategyFacts.initial_aliased. Qed.

(** *** What a detection sweep does and does not touch *)

Lemma handleRSI_bottomPrices_other (s symbol : string) (inp : Fetched) (st : State) :
  s <> symbol ->
  bottomPrices (handleRSI s inp st).1 !! symbol = bottomPrices st !! symbol.
Proof.
  intros Hne. unfold handleRSI, handleRSI_start, openPosition, updateExisting,
    ensureEntryArray, unshift.
  break_match; cbn; try reflexivity; apply lookup_insert_ne; exact Hne.
Qed.

Lemma handleRSI_entries_other (s symbol : string) (inp : Fetched) (st : State) :
  storeOk st ->
  s <> symbol ->
  entryPrices (handleRSI s inp st).1 !! symbol = entryPrices st !! symbol
  /\ forall ref, entryPrices st !! symbol = Some ref ->
                 heap (handleRSI s inp st).1 !! ref = heap st !! ref.
Proof.
  intros [Hdom Hinj] Hne.
  unfold handleRSI, handleRSI_start, openPosition, updateExisting,
    ensureEntryArray, unshift.
  break_match; cbn; try (split; [reflexivity | intros; reflexivity]);
    repeat match goal with
           | H : (_, _) = (_, _) |- _ => injection H as <- <-
           end; cbn in *.
  - split; [reflexivity |]. intros ref Href.
    apply lookup_insert_ne. intros ->. apply Hne. eapply Hinj; eauto.
  - split; [reflexivity |]. intros ref Href.
    apply lookup_insert_ne. intros ->. apply Hne. eapply Hinj; eauto.
  - split; [apply lookup_insert_ne; exact Hne |]. intros ref Href.
    assert (Hfresh : heap st !! fresh (dom (heap st)) = None)
      by (apply not_elem_of_dom, is_fresh).
    assert (Hr : fresh (dom (heap st)) <> ref).
    { intros <-. destruct (Hdom _ _ Href) as [v Hv]. congruence. }
    rewrite !lookup_insert_ne by exact Hr. reflexivity.
Qed.

(** In any reachable state, a detection sweep for one symbol leaves every
    other symbol as it was: its position record, its entry prices, its
    bottom price and its cooldown stamp, and it sends no new signal for
    it. *)
Theorem detection_isolated (ops : list Op) (s symbol : string) (inp : Fetched) :
  s <> symbol ->
  let st := (run ops initial).1 in
  let result := handleRSI s inp st in
  obj_get symbol (sellPrices result.1) = obj_get symbol (sellPrices st)
  /\ positionEntries symbol result.1 = positionEntries symbol st
  /\ entriesOf symbol result.1 = entriesOf symbol st
  /\ bottomPrices result.1 !! symbol = bottomPrices st !! symbol
  /\ lastNotificationTimes result.1 !! symbol = lastNotificationTimes st !! symbol
  /\ newSignals symbol result.2 = 0%nat.
Proof.
  intros Hne st result.
  destruct (StrategyMore.run_consistent ops initial StrategyMore.initial_consistent)
    as (Ha & Hs & _ & _).
  fold st in Ha, Hs.
  pose proof (StrategyFacts.handleRSI_sellPrices_other s symbol inp st Hne) as Hpos.
  destruct (handleRSI_entries_other s symbol inp st Hs Hne) as [He Hh].
  fold result in Hpos, He, Hh.
  assert (Hentries : entriesOf symbol result.1 = entriesOf symbol st).
  { unfold entriesOf, deref. rewrite He.
    destruct (entryPrices st !! symbol) as [ref|] eqn:E; [| reflexivity].
    rewrite (Hh ref eq_refl). reflexivity. }
  split; [exact Hpos |]. split.
  - unfold positionEntries, deref. rewrite Hpos.
    destruct (obj_get symbol (sellPrices st)) as [pos|] eqn:E; [| reflexivity].
    rewrite (Hh _ (Ha symbol pos E)). reflexivity.
  - split; [exact Hentries |].
    split; [apply handleRSI_bottomPrices_other; exact Hne |].
    split; [apply StrategyFacts.handleRSI_lastNotificationTimes_other; exact Hne |].
    apply StrategyFacts.handleRSI_newSignals_other; exact Hne.
Qed.

Lemma detection_isolated_witness :
  XYZUSDT <> ABCUSDT
  /\ positionEntries ABCUSDT
       (handleRSI XYZUSDT (raiseAt 50 (minute1000 + 20000) (Some 8%Z))
          (run (take 1 averagingRun) initial).1).1
     = positionEntries ABCUSDT (run (take 1 averagingRun) initial).1.
Proof.
  assert (Hne : XYZUSDT <> ABCUSDT) by discriminate.
  split; [exact Hne |].
  exact (proj1 (proj2 (detection_isolated (take 1 averagingRun) XYZUSDT ABCUSDT
                         (raiseAt 50 (minute1000 + 20000) (Some 8%Z)) Hne))).
Defined.

(** A detection sweep on an idle symbol opens a position exactly when the
    scores satisfy the raise condition and the cooldown is over. *)
Theorem opens_iff (symbol : string) (inp : Fetched) (st : State) :
  isActive symbol st = false ->
  isActive symbol (handleRSI symbol inp st).1 = true
  <-> raiseEligible inp = true /\ cooldownActive symbol (currentTime inp) st = false.
Proof.
  intros Hidle. split.
  - unfold handleRSI.
    destruct (handleRSI_start symbol inp st) as [st' ev | st' ev msg resume] eqn:E;
      cbn [fst].
    + apply (StrategyFacts.handleRSI_start_Returned _ symbol) in E.
      destruct E as (_ & _ & Hs & _). unfold isActive in *. rewrite Hs.
      congruence.
    + apply StrategyFacts.handleRSI_start_AwaitingSend in E.
      destruct E as (p15 & p1 & cp & log & b & H15 & H1 & _ & _ & Hraise & Hcool & _).
      intros _. unfold raiseEligible. rewrite H15, H1. auto.
  - intros [Hraise Hcool].
    destruct (StrategyFacts.handleRSI_start_raise symbol inp st Hidle Hraise Hcool)
      as (cp & r15 & r1 & b & E).
    destruct (StrategyFacts.openPosition_spec symbol cp (currentTime inp)
                (LogRSIAndPrice symbol r15 r1 (Some cp)) (with_btc b st))
      as (ref & st3 & resume & E' & _ & _ & _ & _ & Hres).
    unfold handleRSI, isActive. rewrite E, E'. cbn [fst].
    destruct (Hres (sent inp)) as (_ & -> & _).
    rewrite obj_get_set_eq. reflexivity.
Qed.

Lemma opens_iff_witness :
  isActive ABCUSDT initial = false
  /\ (isActive ABCUSDT (handleRSI ABCUSDT (raiseAt 100 minute1000 None) initial).1 = true
      <-> raiseEligible (raiseAt 100 minute1000 None) = true
          /\ cooldownActive ABCUSDT (currentTime (raiseAt 100 minute1000 None)) initial
             = false).
Proof.
  split; [reflexivity |].
  apply (opens_iff ABCUSDT (raiseAt 100 minute1000 None) initial). reflexivity.
Defined.

(** While a symbol has an open position, a detection sweep for it sends no
    new signal, whatever the scores and however long ago the last one was,
    and leaves the position record, the bottom price and the cooldown
    stamps untouched. *)
Theorem active_sweep_quiet (symbol : string) (inp : Fetched) (st : State) :
  isActive symbol st = true ->
  newSignals symbol (handleRSI symbol inp st).2 = 0%nat
  /\ sellPrices (handleRSI symbol inp st).1 = sellPrices st
  /\ bottomPrices (handleRSI symbol inp st).1 = bottomPrices st
  /\ lastNotificationTimes (handleRSI symbol inp st).1 = lastNotificationTimes st.
Proof.
  intros Hact. unfold handleRSI.
  destruct (handleRSI_start symbol inp st) as [st' ev | st' ev msg resume] eqn:E;
    cbn [fst snd].
  - apply (StrategyFacts.handleRSI_start_Returned _ symbol) in E. tauto.
  - apply StrategyFacts.handleRSI_start_AwaitingSend in E.
    destruct E as (p15 & p1 & cp & log & b & _ & _ & _ & Hidle & _).
    unfold isActive in Hact. rewrite Hidle in Hact. discriminate.
Qed.

Lemma active_sweep_quiet_witness :
  isActive ABCUSDT opened100 = true
  /\ newSignals ABCUSDT
       (handleRSI ABCUSDT (raiseAt 95 (minute1000 + minutes 45) (Some 8%Z)) opened100).2
     = 0%nat.
Proof.
  split; [vm_compute; reflexivity |].
  exact (proj1 (active_sweep_quiet ABCUSDT
                  (raiseAt 95 (minute1000 + minutes 45) (Some 8%Z)) opened100
                  ltac:(vm_compute; reflexivity))).
Defined.

(** A detection sweep never closes a position, of its own symbol or of any
    other. *)
Theorem detection_never_closes (s symbol : string) (inp : Fetched) (st : State) :
  isActive symbol st = true ->
  isActive symbol (handleRSI s inp st).1 = true.
Proof.
  intros Hact. unfold isActive in *.
  destruct (decide (s = symbol)) as [->|Hne].
  - rewrite StrategyFacts.handleRSI_sellPrices_active; [exact Hact |].
    exact Hact.
  - rewrite StrategyFacts.handleRSI_sellPrices_other by exact Hne. exact Hact.
Qed.

Lemma detection_never_closes_witness :
  isActive ABCUSDT opened100 = true
  /\ isActive ABCUSDT
       (handleRSI ABCUSDT (raiseAt 200 (minute1000 + 20000) None) opened100).1 = true.
Proof.
  split; [vm_compute; reflexivity |].
  apply (detection_never_closes ABCUSDT ABCUSDT
           (raiseAt 200 (minute1000 + 20000) None) opened100).
  vm_compute; reflexivity.
Defined.

(** *** Averaging down *)

(** With a position open, a sweep whose price is not below the sell target,
    or not below the most recent entry, changes nothing but the indicator
    log: no entry is added, nothing is sent or edited, and replaying the
    sweep finds the same position. *)
Theorem hold_sweep_changes_nothing (symbol : string) (inp : Fetched) (st : State)
        (pos : Position) (p15 p1 : list Q) (cp e : Q) (rest : list Q) :
  obj_get symbol (sellPrices st) = Some pos ->
  prices15m inp = Some p15 ->
  prices1m inp = Some p1 ->
  lastPrice p1 = Some cp ->
  entriesOf symbol st = e :: rest ->
  sellPrice pos <= cp \/ e <= cp ->
  (handleRSI symbol inp st).2
  = [LogRSIAndPrice symbol (calculateRSI p15) (calculateRSI p1) (Some cp)]
  /\ sellPrices (handleRSI symbol inp st).1 = sellPrices st
  /\ bottomPrices (handleRSI symbol inp st).1 = bottomPrices st
  /\ lastNotificationTimes (handleRSI symbol inp st).1 = lastNotificationTimes st
  /\ entryPrices (handleRSI symbol inp st).1 = entryPrices st
  /\ heap (handleRSI symbol inp st).1 = heap st.
Proof.
  intros Hpos H15 H1 Hlast Hentries Hhold.
  unfold handleRSI, handleRSI_start, updateExisting.
  destruct (calculateBTCChanges _ _ _) as [d b].
  rewrite H15, H1, Hlast. cbn [sellPrices with_btc entryPrices]. rewrite Hpos.
  unfold entriesOf in Hentries.
  destruct (Js.lt cp (sellPrice pos)) eqn:Elt; [| cbn; auto 10].
  destruct (entryPrices st !! symbol) as [ref|] eqn:Eref; [| discriminate].
  change (deref ref (with_btc b st)) with (deref ref st). rewrite Hentries.
  cbn [length Nat.eqb orb head Js.ltU].
  destruct (Js.lt cp e) eqn:Ee; [| cbn; auto 10].
  exfalso.
  apply (Js_gt_spec (sellPrice pos) cp) in Elt.
  apply (Js_gt_spec e cp) in Ee.
  destruct Hhold; lra.
Qed.

Lemma hold_sweep_changes_nothing_witness :
  obj_get ABCUSDT (sellPrices opened100)
  = Some {| entryPricesRef := 0; sellPrice := Js.toFixed 8 (100 * (1011 # 1000));
            messageId := Some 7%Z; buyTime := minute1000 |}
  /\ entriesOf ABCUSDT opened100 = [100]
  /\ heap (handleRSI ABCUSDT (raiseAt 100 (minute1000 + 20000) None) opened100).1
     = heap opened100.
Proof.
  split; [vm_compute; reflexivity |]. split; [vm_compute; reflexivity |].
  refine (proj2 (proj2 (proj2 (proj2 (proj2
            (hold_sweep_changes_nothing ABCUSDT
               (raiseAt 100 (minute1000 + 20000) None) opened100 _
               (fallingTo 100) (risingTo 100) 100 100 []
               _ eq_refl eq_refl _ _ _)))))).
  - vm_compute; reflexivity.
  - vm_compute; reflexivity.
  - vm_compute; reflexivity.
  - right. vm_compute. discriminate.
Defined.

(** With a position open, a sweep whose price is below the sell target and
    below the most recent entry prepends it to the position's entry list
    (the write goes through [entryPrices[symbol]] and is seen through the
    position record), edits the signal message to show the new list, and
    leaves the position record itself as it was. *)
Theorem averaging_down_prepends (symbol : string) (inp : Fetched) (st : State)
        (pos : Position) (p15 p1 : list Q) (cp e : Q) (rest : list Q) :
  aliased st ->
  obj_get symbol (sellPrices st) = Some pos ->
  prices15m inp = Some p15 ->
  prices1m inp = Some p1 ->
  lastPrice p1 = Some cp ->
  positionEntries symbol st = Some (e :: rest) ->
  cp < sellPrice pos ->
  cp < e ->
  positionEntries symbol (handleRSI symbol inp st).1 = Some (cp :: e :: rest)
  /\ (handleRSI symbol inp st).2
     = [LogRSIAndPrice symbol (calculateRSI p15) (calculateRSI p1) (Some cp);
        EditTelegramMessage (messageId pos)
          (BuySignal symbol (cp :: e :: rest) (sellPrice pos) None)]
  /\ obj_get symbol (sellPrices (handleRSI symbol inp st).1) = Some pos.
Proof.
  intros Ha Hpos H15 H1 Hlast Hentries Htarget Hentry.
  pose proof (Ha symbol pos Hpos) as Href.
  unfold positionEntries in Hentries. rewrite Hpos in Hentries.
  injection Hentries as Hentries.
  unfold positionEntries, handleRSI, handleRSI_start, updateExisting.
  destruct (calculateBTCChanges _ _ _) as [d b].
  rewrite H15, H1, Hlast. cbn [sellPrices with_btc entryPrices]. rewrite Hpos, Href.
  apply Js_gt_spec in Htarget. unfold Js.gt in Htarget. rewrite Htarget.
  change (deref (entryPricesRef pos) (with_btc b st))
    with (deref (entryPricesRef pos) st).
  rewrite Hentries. cbn [length Nat.eqb orb head Js.ltU].
  apply Js_gt_spec in Hentry. unfold Js.gt in Hentry. rewrite Hentry.
  cbn [fst snd].
  change (sellPrices (unshift (entryPricesRef pos) cp (with_btc b st)))
    with (sellPrices st).
  change (sellPrices (with_btc b st)) with (sellPrices st).
  rewrite Hpos, StrategyFacts.deref_unshift.
  change (deref (entryPricesRef pos) (with_btc b st))
    with (deref (entryPricesRef pos) st).
  rewrite Hentries. auto.
Qed.

Lemma averaging_down_prepends_witness :
  aliased opened100
  /\ positionEntries ABCUSDT opened100 = Some [100]
  /\ positionEntries ABCUSDT
       (handleRSI ABCUSDT (raiseAt 95 (minute1000 + 20000) None) opened100).1
     = Some [95; 100].
Proof.
  assert (Ha : aliased opened100).
  { apply (StrategyFacts.run_aliased
             [Detect ABCUSDT (raiseAt 100 minute1000 (Some 7%Z))] initial).
    apply StrategyFacts.initial_aliased. }
  split; [exact Ha |]. split; [vm_compute; reflexivity |].
  refine (proj1 (averaging_down_prepends ABCUSDT
                   (raiseAt 95 (minute1000 + 20000) None) opened100
                   {| entryPricesRef := 0;
                      sellPrice := Js.toFixed 8 (100 * (1011 # 1000));
                      messageId := Some 7%Z; buyTime := minute1000 |}
                   (fallingTo 95) (risingTo 95) 95 100 []
                   Ha _ eq_refl eq_refl _ _ _ _));
    vm_compute; reflexivity.
Defined.

(** *** The target-check sweep as a whole *)

Lemma obj_get_keys {V : Type} (k : string) (v : V) : forall o : list (string * V),
  obj_get k o = Some v -> In k (obj_keys o).
Proof.
  induction o as [|[k' v'] rest IH]; cbn; [discriminate |].
  destruct (decide (k = k')) as [->|Hne]; [auto |].
  intros H. right. apply IH. exact H.
Qed.

Lemma closed_lookup (s symbol : string) (st : State) :
  obj_get symbol (sellPrices (closed s st))
  = (if decide (s = symbol) then None else obj_get symbol (sellPrices st))
  /\ bottomPrices (closed s st) !! symbol
     = (if decide (s = symbol) then None else bottomPrices st !! symbol).
Proof.
  unfold closed. cbn.
  destruct (decide (s = symbol)) as [->|Hne].
  - rewrite obj_get_delete_eq, lookup_delete_eq. auto.
  - rewrite obj_get_delete_ne, lookup_delete_ne by exact Hne. auto.
Qed.

Lemma checkLoop_decides (obs : string -> Observation) (symbol : string) :
  forall symbols st,
    obj_get symbol (sellPrices (checkLoop symbols obs st).1)
    = match obj_get symbol (sellPrices st) with
      | Some pos =>
          if bool_decide (symbol ∈ symbols) && reachesTarget (obs symbol) pos
          then None else Some pos
      | None => None
      end
    /\ bottomPrices (checkLoop symbols obs st).1 !! symbol
       = match obj_get symbol (sellPrices st) with
         | Some pos =>
             if bool_decide (symbol ∈ symbols) && reachesTarget (obs symbol) pos
             then None else bottomPrices st !! symbol
         | None => bottomPrices st !! symbol
         end.
Proof.
  induction symbols as [|s rest IH]; intros st; cbn [checkLoop].
  - cbn. destruct (obj_get symbol (sellPrices st)); auto.
  - pose proof (StrategyMore.checkSymbol_state s (obs s) st) as Hst.
    destruct (checkSymbol s (obs s) st) as [st1 e1]. cbn [fst] in Hst.
    specialize (IH st1).
    destruct (checkLoop rest obs st1) as [st2 e2]. cbn [fst] in *.
    destruct IH as [IHs IHb]. rewrite IHs, IHb. clear IHs IHb.
    destruct (decide (s = symbol)) as [->|Hne].
    + rewrite (bool_decide_eq_true_2 (symbol ∈ symbol :: rest))
        by (apply list_elem_of_here).
      cbn [andb].
      subst st1.
      destruct (obj_get symbol (sellPrices st)) as [pos|] eqn:Hpos.
      * destruct (reachesTarget (obs symbol) pos) eqn:Hr.
        -- destruct (closed_lookup symbol symbol st) as [-> ->].
           destruct (decide (symbol = symbol)); [auto | contradiction].
        -- rewrite Hpos, Hr, andb_false_r. auto.
      * rewrite Hpos. auto.
    + assert (Hin : bool_decide (symbol ∈ s :: rest) = bool_decide (symbol ∈ rest)).
      { apply bool_decide_ext. rewrite elem_of_cons.
        split; [intros [?|?]; [congruence | auto] | auto]. }
      rewrite Hin.
      assert (Hsame : obj_get symbol (sellPrices st1) = obj_get symbol (sellPrices st)
                      /\ bottomPrices st1 !! symbol = bottomPrices st !! symbol).
      { subst st1. destruct (obj_get s (sellPrices st)) as [p|]; [| auto].
        destruct (reachesTarget (obs s) p); [| auto].
        destruct (closed_lookup s symbol st) as [-> ->].
        destruct (decide (s = symbol)); [contradiction | auto]. }
      destruct Hsame as [-> ->]. auto.
Qed.

(** A target-check sweep closes exactly the positions whose fetch succeeded
    with a latest close at or above the sell target: such a position loses
    its record and its bottom price, every other position keeps both, and a
    symbol without a position stays without one. *)
Theorem check_closes_exactly (obs : string -> Observation) (st : State)
        (symbol : string) :
  obj_get symbol (sellPrices (checkTargetAchieved obs st).1)
  = match obj_get symbol (sellPrices st) with
    | Some pos => if reachesTarget (obs symbol) pos then None else Some pos
    | None => None
    end
  /\ bottomPrices (checkTargetAchieved obs st).1 !! symbol
     = match obj_get symbol (sellPrices st) with
       | Some pos =>
           if reachesTarget (obs symbol) pos then None else bottomPrices st !! symbol
       | None => bottomPrices st !! symbol
       end.
Proof.
  unfold checkTargetAchieved.
  destruct (checkLoop_decides obs symbol (obj_keys (sellPrices st)) st) as [-> ->].
  destruct (obj_get symbol (sellPrices st)) as [pos|] eqn:Hpos; [| auto].
  rewrite bool_decide_eq_true_2
    by (apply list_elem_of_In; eapply obj_get_keys; exact Hpos).
  auto.
Qed.

(** A target-check sweep never sends a new signal, never moves a cooldown
    stamp (closing a position does not end the cooldown), and never touches
    [entryPrices] or any entry array: the entries of a closed position stay
    behind. *)
Theorem check_never_touches (obs : string -> Observation) (st : State)
        (symbol : string) :
  newSignals symbol (checkTargetAchieved obs st).2 = 0%nat
  /\ lastNotificationTimes (checkTargetAchieved obs st).1 = lastNotificationTimes st
  /\ entryPrices (checkTargetAchieved obs st).1 = entryPrices st
  /\ heap (checkTargetAchieved obs st).1 = heap st
  /\ entriesOf symbol (checkTargetAchieved obs st).1 = entriesOf symbol st.
Proof.
  unfold checkTargetAchieved.
  destruct (StrategyFacts.checkLoop_frame obs (obj_keys (sellPrices st)) st)
    as (Hl & Hn & _).
  assert (Hstore : forall symbols st0,
             entryPrices (checkLoop symbols obs st0).1 = entryPrices st0
             /\ heap (checkLoop symbols obs st0).1 = heap st0).
  { induction symbols as [|s rest IH]; intros st0; cbn [checkLoop]; [auto |].
    destruct (StrategyMore.checkSymbol_store s (obs s) st0) as [He Hh].
    destruct (checkSymbol s (obs s) st0) as [st1 e1]. cbn [fst] in *.
    destruct (IH st1) as [He' Hh'].
    destruct (checkLoop rest obs st1) as [st2 e2]. cbn [fst] in *.
    split; congruence. }
  destruct (Hstore (obj_keys (sellPrices st)) st) as [He Hh].
  split; [apply Hn |]. split; [exact Hl |]. split; [exact He |]. split; [exact Hh |].
  unfold entriesOf, deref. rewrite He, Hh. reflexivity.
Qed.

(** *** Cooldown stamps and the indicator log *)

(** A detection sweep moves a cooldown stamp only when it sends a new
    signal: then it is the stamp of its own symbol, set to the time of the
    sweep.  Averaging-down edits never restart the cooldown. *)
Theorem stamp_moves_only_with_signal (s symbol : string) (inp : Fetched) (st : State) :
  lastNotificationTimes (handleRSI s inp st).1 !! symbol
  = lastNotificationTimes st !! symbol
  \/ (symbol = s
      /\ lastNotificationTimes (handleRSI s inp st).1 !! s = Some (currentTime inp)
      /\ newSignals s (handleRSI s inp st).2 = 1%nat).
Proof.
  destruct (decide (s = symbol)) as [<-|Hne];
    [| left; apply StrategyFacts.handleRSI_lastNotificationTimes_other; exact Hne].
  unfold handleRSI.
  destruct (handleRSI_start s inp st) as [st' ev | st' ev msg resume] eqn:E;
    cbn [fst snd].
  - apply (StrategyFacts.handleRSI_start_Returned _ s) in E.
    destruct E as (_ & -> & _). left. reflexivity.
  - right. pose proof E as E0.
    apply StrategyFacts.handleRSI_start_AwaitingSend in E.
    destruct E as (p15 & p1 & cp & log & b & H15 & H1 & _ & Hidle & Hraise & Hcool & _).
    assert (Hi : isActive s st = false) by (unfold isActive; rewrite Hidle; reflexivity).
    assert (Hr : raiseEligible inp = true)
      by (unfold raiseEligible; rewrite H15, H1; exact Hraise).
    destruct (StrategyFacts.handleRSI_raise s inp st Hi Hr Hcool) as [Hn Hl].
    unfold handleRSI in Hn, Hl. rewrite E0 in Hn, Hl. cbn [fst snd] in Hn, Hl.
    auto.
Qed.

(** A detection sweep whose two candle fetches succeeded appends exactly
    one row to the indicator log, first thing, with the two scores and the
    latest close, whether or not a signal follows. *)
Theorem sweep_logs_once (symbol : string) (inp : Fetched) (st : State)
        (p15 p1 : list Q) :
  prices15m inp = Some p15 ->
  prices1m inp = Some p1 ->
  exists rest,
    (handleRSI symbol inp st).2
    = LogRSIAndPrice symbol (calculateRSI p15) (calculateRSI p1) (lastPrice p1) :: rest
    /\ rsiLogs rest = 0%nat.
Proof.
  intros H15 H1.
  unfold handleRSI, handleRSI_start, openPosition, updateExisting.
  destruct (calculateBTCChanges _ _ _) as [d b]. rewrite H15, H1.
  break_match; cbn [snd app]; eexists; (split; [reflexivity | reflexivity]).
Qed.

Lemma sweep_logs_once_witness :
  prices15m (raiseAt 100 minute1000 None) = Some (fallingTo 100)
  /\ prices1m (raiseAt 100 minute1000 None) = Some (risingTo 100)
  /\ exists rest,
      (handleRSI ABCUSDT (raiseAt 100 minute1000 None) initial).2
      = LogRSIAndPrice ABCUSDT (calculateRSI (fallingTo 100))
          (calculateRSI (risingTo 100)) (lastPrice (risingTo 100)) :: rest
      /\ rsiLogs rest = 0%nat.
Proof.
  split; [reflexivity |]. split; [reflexivity |].
  exact (sweep_logs_once ABCUSDT (raiseAt 100 minute1000 None) initial
           (fallingTo 100) (risingTo 100) eq_refl eq_refl).
Defined.

(** *** Short candle sequences and the raise condition *)

(** A 1-minute sequence of fewer than 14 closes never raises a signal
    ([null > threshold] is false); a 15-minute sequence of fewer than 14
    closes does not hold one back ([null < threshold] is true), so the
    1-minute score alone decides.  The two variants differ in the thresholds
    only. *)
Theorem short_sequences_and_raising (inp : Fetched) (p15 p1 : list Q) :
  prices15m inp = Some p15 ->
  prices1m inp = Some p1 ->
  ((length p1 < RSI_PERIOD)%nat ->
   raiseEligible inp = false /\ Variant.raiseEligible inp = false)
  /\ ((length p15 < RSI_PERIOD)%nat ->
      forall r, calculateRSI p1 = Some r ->
                (30 < r -> raiseEligible inp = true)
                /\ (10 < r -> Variant.raiseEligible inp = true)).
Proof.
  intros H15 H1. unfold raiseEligible, Variant.raiseEligible. rewrite H15, H1.
  unfold raiseCondition, Variant.raiseCondition. split.
  - intros Hshort. apply calculateRSI_unavailable_iff in Hshort. rewrite Hshort.
    split; apply andb_false_r.
  - intros Hshort r Hr. apply calculateRSI_unavailable_iff in Hshort.
    rewrite Hshort, Hr. cbn [Js.nullToNumber].
    split; intros Hgt; apply andb_true_intro; (split; [reflexivity |]);
      apply Js_gt_spec; exact Hgt.
Qed.

Lemma short_sequences_and_raising_witness :
  prices15m (sweepInput [100; 101] (risingTo 100) minute1000 None) = Some [100; 101]
  /\ prices1m (sweepInput [100; 101] (risingTo 100) minute1000 None)
     = Some (risingTo 100)
  /\ (length [100; 101] < RSI_PERIOD)%nat
  /\ calculateRSI (risingTo 100) = Some 100
  /\ raiseEligible (sweepInput [100; 101] (risingTo 100) minute1000 None) = true.
Proof.
  assert (Hshort : (length [100; 101] < RSI_PERIOD)%nat) by (vm_compute; lia).
  split; [reflexivity |]. split; [reflexivity |]. split; [exact Hshort |].
  split; [reflexivity |].
  refine (proj1 (proj2 (short_sequences_and_raising
                          (sweepInput [100; 101] (risingTo 100) minute1000 None)
                          [100; 101] (risingTo 100) eq_refl eq_refl)
                   Hshort 100 eq_refl) _).
  reflexivity.
Defined.

(** *** The record of a fresh position *)

(** What a sweep that opens a position leaves in the trackers. *)
Lemma handleRSI_opened (symbol : string) (inp : Fetched) (st : State) :
  isActive symbol st = false ->
  raiseEligible inp = true ->
  cooldownActive symbol (currentTime inp) st = false ->
  exists p1 cp pos,
    prices1m inp = Some p1
    /\ lastPrice p1 = Some cp
    /\ obj_get symbol (sellPrices (handleRSI symbol inp st).1) = Some pos
    /\ sellPrice pos = Js.toFixed 8 (cp * (1011 # 1000))
    /\ messageId pos = sent inp
    /\ buyTime pos = currentTime inp
    /\ bottomPrices (handleRSI symbol inp st).1 !! symbol = Some cp.
Proof.
  intros Hidle Hraise Hcool.
  unfold handleRSI.
  destruct (handleRSI_start symbol inp st) as [st' ev | st' ev msg resume] eqn:E.
  - destruct (StrategyFacts.handleRSI_start_raise symbol inp st Hidle Hraise Hcool)
      as (cp & r15 & r1 & b & E0).
    destruct (StrategyFacts.openPosition_spec symbol cp (currentTime inp)
                (LogRSIAndPrice symbol r15 r1 (Some cp)) (with_btc b st))
      as (ref & st3 & resume & E' & _).
    congruence.
  - apply StrategyFacts.handleRSI_start_AwaitingSend in E.
    destruct E as (p15 & p1 & cp & log & b & _ & Hp1 & Hlast & _ & _ & _ & E).
    destruct (StrategyFacts.openPosition_spec symbol cp (currentTime inp) log
                (with_btc b st))
      as (ref & st3 & resume' & E' & _ & _ & _ & _ & Hres).
    rewrite E in E'. injection E' as _ _ _ ->.
    destruct (Hres (sent inp)) as (_ & Hs & Hb & _).
    exists p1, cp. eexists.
    split; [exact Hp1 |]. split; [exact Hlast |].
    cbn [fst]. rewrite Hs, Hb, obj_get_set_eq, lookup_insert_eq.
    split; [reflexivity |]. cbn. auto.
Qed.

(** A sweep that raises a signal opens the position whether or not the
    send went through: the record holds the target
    [(currentPrice * 1.011).toFixed(8)], what the send resolved to as the
    message id ([undefined] after a failed send) and the time of the sweep
    as the buy time, and the bottom price starts at the entry price. *)
Theorem fresh_position_record (symbol : string) (inp : Fetched) (st : State) :
  isActive symbol st = false ->
  raiseEligible inp = true ->
  cooldownActive symbol (currentTime inp) st = false ->
  exists p1 cp pos,
    prices1m inp = Some p1
    /\ lastPrice p1 = Some cp
    /\ obj_get symbol (sellPrices (handleRSI symbol inp st).1) = Some pos
    /\ sellPrice pos = Js.toFixed 8 (cp * (1011 # 1000))
    /\ messageId pos = sent inp
    /\ buyTime pos = currentTime inp
    /\ bottomPrices (handleRSI symbol inp st).1 !! symbol = Some cp.
Proof. exact (handleRSI_opened symbol inp st). Qed.

Lemma fresh_position_record_witness :
  isActive ABCUSDT initial = false
  /\ raiseEligible (raiseAt 100 minute1000 None) = true
  /\ cooldownActive ABCUSDT (currentTime (raiseAt 100 minute1000 None)) initial = false
  /\ exists p1 cp pos,
      prices1m (raiseAt 100 minute1000 None) = Some p1
      /\ lastPrice p1 = Some cp
      /\ obj_get ABCUSDT
           (sellPrices (handleRSI ABCUSDT (raiseAt 100 minute1000 None) initial).1)
         = Some pos
      /\ sellPrice pos = Js.toFixed 8 (cp * (1011 # 1000))
      /\ messageId pos = sent (raiseAt 100 minute1000 None)
      /\ buyTime pos = currentTime (raiseAt 100 minute1000 None)
      /\ bottomPrices (handleRSI ABCUSDT (raiseAt 100 minute1000 None) initial).1
           !! ABCUSDT = Some cp.
Proof.
  split; [reflexivity |]. split; [reflexivity |]. split; [reflexivity |].
  exact (fresh_position_record ABCUSDT (raiseAt 100 minute1000 None) initial
           eq_refl eq_refl eq_refl).
Defined.

(** ** More on [src/unnamed/part_000] *)

Module VariantMore.
Import Variant.

Lemma variant_handleRSI_bottomBelowBuy (s : string) (inp : Fetched) (st : State) :
  bottomBelowBuy st -> bottomBelowBuy (handleRSI s inp st).1.
Proof.
  intros Hok symbol pos.
  unfold handleRSI, handleRSI_start, openPosition.
  break_match; cbn [fst sellPrices bottomPrices with_btc with_bottomPrices
                    with_sellPrices with_lastNotificationTimes];
    try (apply Hok).
  destruct (decide (s = symbol)) as [->|Hne].
  - rewrite obj_get_set_eq, lookup_insert_eq. intros [= <-]. cbn [buyPrice].
    eexists. split; [reflexivity | lra].
  - rewrite obj_get_set_ne, lookup_insert_ne by exact Hne. apply Hok.
Qed.

Lemma updateBottom_bottomBelowBuy (s : string) (cp : option Q) (st : State) :
  bottomBelowBuy st -> bottomBelowBuy (updateBottom s cp st).
Proof.
  intros Hok symbol pos. unfold updateBottom.
  destruct cp as [p|]; [| apply Hok].
  destruct (Js.ltU (Some p) (bottomPrices st !! s)) eqn:E; [| apply Hok].
  cbn [sellPrices bottomPrices with_bottomPrices]. intros Hpos.
  destruct (Hok symbol pos Hpos) as (b & Hb & Hle).
  destruct (decide (s = symbol)) as [->|Hne].
  - rewrite lookup_insert_eq. exists p. split; [reflexivity |].
    rewrite Hb in E. cbn in E. apply (Js_gt_spec b p) in E. lra.
  - rewrite lookup_insert_ne by exact Hne. eauto.
Qed.

Lemma variant_checkSymbol_bottomBelowBuy (s : string) (obs : Observation) (st : State) :
  bottomBelowBuy st -> bottomBelowBuy (checkSymbol s obs st).1.
Proof.
  intros Hok. unfold checkSymbol.
  destruct (obj_get s (sellPrices st)) as [p|]; [| exact Hok].
  destruct (calculateBTCChanges _ _ _) as [d b].
  assert (Hok' : bottomBelowBuy (with_btc b st)) by exact Hok.
  destruct (candles obs) as [prices|]; [| exact Hok'].
  pose proof (updateBottom_bottomBelowBuy s (lastPrice prices) _ Hok') as Hup.
  destruct (Js.geU _ _); [| exact Hup].
  intros symbol pos. cbn [fst sellPrices bottomPrices with_bottomPrices with_sellPrices].
  destruct (decide (s = symbol)) as [->|Hne].
  - rewrite obj_get_delete_eq. discriminate.
  - rewrite obj_get_delete_ne, lookup_delete_ne by exact Hne. apply Hup.
Qed.

Lemma variant_run_bottomBelowBuy : forall (ops : list Op) (st : State),
  bottomBelowBuy st -> bottomBelowBuy (run ops st).1.
Proof.
  induction ops as [|op rest IH]; intros st Hok; cbn [run]; [exact Hok |].
  assert (H1 : bottomBelowBuy (step op st).1).
  { destruct op as [s inp | obs]; cbn [step].
    - apply variant_handleRSI_bottomBelowBuy; exact Hok.
    - unfold checkTargetAchieved. generalize (obj_keys (sellPrices st)).
      intros symbols. revert st Hok.
      induction symbols as [|s more IHs]; intros st Hok; cbn [checkLoop]; [exact Hok |].
      pose proof (variant_checkSymbol_bottomBelowBuy s (obs s) st Hok) as Hc.
      destruct (checkSymbol s (obs s) st) as [st1 e1]. cbn [fst] in Hc.
      specialize (IHs st1 Hc).
      destruct (checkLoop more obs st1) as [st2 e2]. exact IHs. }
  destruct (step op st) as [st1 e1]. cbn [fst] in H1.
  specialize (IH st1 H1).
  destruct (run rest st1) as [st2 e2]. exact IH.
Qed.

End VariantMore.

(** In the single-entry variant, in every state the scheduler can reach,
    every open position has a bottom price and that bottom price is at most
    the position's buy price. *)
Theorem variant_bottom_below_buy (ops : list Variant.Op) (symbol : string)
        (pos : Variant.Position) :
  obj_get symbol (Variant.sellPrices (Variant.run ops Variant.initial).1) = Some pos ->
  exists bottom,
    Variant.bottomPrices (Variant.run ops Variant.initial).1 !! symbol = Some bottom
    /\ bottom <= Variant.buyPrice pos.
Proof.
  apply (VariantMore.variant_run_bottomBelowBuy ops Variant.initial).
  intros s p H. discriminate H.
Qed.

Lemma variant_bottom_below_buy_witness :
  exists bottom,
    Variant.bottomPrices (Variant.run variantDipRun Variant.initial).1 !! ABCUSDT
    = Some bottom
    /\ bottom <= 100.
Proof.
  exact (variant_bottom_below_buy variantDipRun ABCUSDT
           {| Variant.buyPrice := 100;
              Variant.sellPrice := Js.toFixed 8 (100 * (1011 # 1000));
              Variant.messageId := Some 7%Z; Variant.buyTime := minute1000;
              Variant.btcPriceAtBuy := None |}
           ltac:(vm_compute; reflexivity)).
Defined.

(** The single-entry variant does not look for an open position: any
    raise-eligible sweep outside the cooldown sends a new signal and
    replaces the symbol's record, its sell target and its bottom price with
    those of the current price, open position or not. *)
Theorem variant_raise_overwrites (symbol : string) (inp : Fetched) (st : Variant.State) :
  Variant.raiseEligible inp = true ->
  Variant.cooldownActive symbol (currentTime inp) st = false ->
  exists p1 cp,
    prices1m inp = Some p1
    /\ lastPrice p1 = Some cp
    /\ obj_get symbol (Variant.sellPrices (Variant.handleRSI symbol inp st).1)
       = Some {| Variant.buyPrice := cp;
                 Variant.sellPrice := Js.toFixed 8 (cp * (1011 # 1000));
                 Variant.messageId := sent inp;
                 Variant.buyTime := currentTime inp;
                 Variant.btcPriceAtBuy :=
                   btcPrice (fst (calculateBTCChanges (btcResponse inp) (btcClock inp)
                                    (Variant.btc st))) |}
    /\ Variant.bottomPrices (Variant.handleRSI symbol inp st).1 !! symbol = Some cp
    /\ newSignals symbol (Variant.handleRSI symbol inp st).2 = 1%nat.
Proof.
  unfold Variant.raiseEligible. intros Hraise Hcool.
  destruct (prices15m inp) as [p15|] eqn:H15; [| discriminate].
  destruct (prices1m inp) as [p1|] eqn:H1; [| discriminate].
  destruct (VariantFacts.variant_raiseCondition_lastPrice _ _ Hraise) as [cp Hlast].
  exists p1, cp. split; [reflexivity |]. split; [exact Hlast |].
  unfold Variant.handleRSI, Variant.handleRSI_start, Variant.openPosition.
  destruct (calculateBTCChanges _ _ _) as [d b].
  rewrite H15, H1, Hlast, Hraise.
  change (Variant.cooldownActive symbol (currentTime inp) (Variant.with_btc b st))
    with (Variant.cooldownActive symbol (currentTime inp) st).
  rewrite Hcool. cbn [fst snd Variant.sellPrices Variant.bottomPrices
                      Variant.with_bottomPrices Variant.with_sellPrices].
  rewrite obj_get_set_eq, lookup_insert_eq.
  split; [reflexivity |]. split; [reflexivity |].
  apply StrategyFacts.newSignals_raise.
Qed.

Lemma variant_raise_overwrites_witness :
  Variant.raiseEligible (raiseAt 90 (minute1000 + minutes 6) (Some 8%Z)) = true
  /\ Variant.cooldownActive ABCUSDT
       (currentTime (raiseAt 90 (minute1000 + minutes 6) (Some 8%Z))) variantOpened100
     = false
  /\ obj_get ABCUSDT (Variant.sellPrices variantOpened100)
     = Some {| Variant.buyPrice := 100;
               Variant.sellPrice := Js.toFixed 8 (100 * (1011 # 1000));
               Variant.messageId := Some 7%Z; Variant.buyTime := minute1000;
               Variant.btcPriceAtBuy := None |}
  /\ exists p1 cp,
      prices1m (raiseAt 90 (minute1000 + minutes 6) (Some 8%Z)) = Some p1
      /\ lastPrice p1 = Some cp
      /\ obj_get ABCUSDT
           (Variant.sellPrices
              (Variant.handleRSI ABCUSDT (raiseAt 90 (minute1000 + minutes 6) (Some 8%Z))
                 variantOpened100).1)
         = Some {| Variant.buyPrice := cp;
                   Variant.sellPrice := Js.toFixed 8 (cp * (1011 # 1000));
                   Variant.messageId := Some 8%Z;
                   Variant.buyTime := minute1000 + minutes 6;
                   Variant.btcPriceAtBuy := None |}.
Proof.
  split; [reflexivity |]. split; [vm_compute; reflexivity |].
  split; [vm_compute; reflexivity |].
  destruct (variant_raise_overwrites ABCUSDT
              (raiseAt 90 (minute1000 + minutes 6) (Some 8%Z)) variantOpened100
              eq_refl ltac:(vm_compute; reflexivity))
    as (p1 & cp & H1 & Hlast & Hpos & _).
  exists p1, cp. split; [exact H1 |]. split; [exact Hlast |]. exact Hpos.
Defined.

(** In the single-entry variant, one iteration of the target-check on an
    open position with an available price lowers the bottom price to the
    smaller of the previous bottom price and the current price before it
    compares with the sell target: when the target is not reached that
    minimum is what is stored, and when it is reached that minimum is what
    the target-achieved message reports. *)
Theorem variant_check_lowers_bottom (symbol : string) (obs : Observation)
        (st : Variant.State) (pos : Variant.Position) (prices : list Q) (cp b : Q) :
  obj_get symbol (Variant.sellPrices st) = Some pos ->
  candles obs = Some prices ->
  lastPrice prices = Some cp ->
  Variant.bottomPrices st !! symbol = Some b ->
  let lowest := if Js.lt cp b then cp else b in
  if Js.ge cp (Variant.sellPrice pos)
  then exists pct duration info,
      (Variant.checkSymbol symbol obs st).2
      = [EditTelegramMessage (Variant.messageId pos)
           (TargetAchieved symbol [Variant.buyPrice pos] (Variant.sellPrice pos)
              (Some lowest) pct duration info)]
  else Variant.bottomPrices (Variant.checkSymbol symbol obs st).1 !! symbol
       = Some lowest.
Proof.
  intros Hpos Hc Hlast Hb.
  exact (VariantFacts.variant_checkSymbol_bottom symbol obs st pos prices cp b
           Hpos Hc Hlast Hb).
Qed.

Lemma variant_check_lowers_bottom_witness :
  obj_get ABCUSDT (Variant.sellPrices variantOpened100)
  = Some {| Variant.buyPrice := 100;
            Variant.sellPrice := Js.toFixed 8 (100 * (1011 # 1000));
            Variant.messageId := Some 7%Z; Variant.buyTime := minute1000;
            Variant.btcPriceAtBuy := None |}
  /\ candles (observeAt 95 (minute1000 + 20000) ABCUSDT) = Some (risingTo 95)
  /\ lastPrice (risingTo 95) = Some 95
  /\ Variant.bottomPrices variantOpened100 !! ABCUSDT = Some 100
  /\ Variant.bottomPrices
       (Variant.checkSymbol ABCUSDT (observeAt 95 (minute1000 + 20000) ABCUSDT)
          variantOpened100).1 !! ABCUSDT
     = Some 95.
Proof.
  split; [vm_compute; reflexivity |]. split; [reflexivity |].
  split; [vm_compute; reflexivity |]. split; [vm_compute; reflexivity |].
  exact (variant_check_lowers_bottom ABCUSDT
           (observeAt 95 (minute1000 + 20000) ABCUSDT) variantOpened100
           {| Variant.buyPrice := 100;
              Variant.sellPrice := Js.toFixed 8 (100 * (1011 # 1000));
              Variant.messageId := Some 7%Z; Variant.buyTime := minute1000;
              Variant.btcPriceAtBuy := None |}
           (risingTo 95) 95 100
           ltac:(vm_compute; reflexivity) eq_refl ltac:(vm_compute; reflexivity)
           ltac:(vm_compute; reflexivity)).
Defined.

(** ** The subscription handler *)

Module TelegramFacts.
Import Telegram.

Lemma elem_of_add (c x : Z) (users : list Z) :
  x ∈ add c users <-> x = c \/ x ∈ users.
Proof.
  unfold add, has. case_bool_decide as Hin.
  - split; [auto |]. intros [-> | H]; assumption.
  - rewrite elem_of_app, list_elem_of_singleton. tauto.
Qed.

Lemma elem_of_remove (c x : Z) (users : list Z) :
  x ∈ remove c users <-> x <> c /\ x ∈ users.
Proof.
  unfold remove. rewrite !list_elem_of_In, List.filter_In, negb_true_iff.
  rewrite bool_decide_eq_false. tauto.
Qed.

Lemma NoDup_add (c : Z) (users : list Z) : NoDup users -> NoDup (add c users).
Proof.
  intros Hnd. unfold add, has. case_bool_decide as Hin; [exact Hnd |].
  apply NoDup_app. split; [exact Hnd |]. split.
  - intros x Hx Hx'. apply list_elem_of_singleton in Hx'. subst. contradiction.
  - apply NoDup_singleton.
Qed.

Lemma NoDup_remove (c : Z) (users : list Z) : NoDup users -> NoDup (remove c users).
Proof.
  intros Hnd. unfold remove.
  apply NoDup_ListNoDup, List.NoDup_filter, NoDup_ListNoDup. exact Hnd.
Qed.

Lemma remove_add_fresh (c : Z) (users : list Z) :
  c ∉ users -> remove c (users ++ [c]) = users.
Proof.
  intros Hnot. unfold remove. rewrite List.filter_app. cbn.
  rewrite bool_decide_eq_true_2 by reflexivity. cbn. rewrite app_nil_r.
  apply forallb_filter_id. apply forallb_forall. intros x Hx.
  apply negb_true_iff, bool_decide_eq_false. intros ->.
  apply Hnot, list_elem_of_In. exact Hx.
Qed.

Lemma handleMessage_elem (chatId other : Z) (message : string)
        (users : list Z) :
  let users' := (handleMessage chatId message users).1 in
  (chatId ∈ users'
   <-> toLowerCase message = "/start"%string
       \/ (toLowerCase message <> "/stop"%string /\ chatId ∈ users))
  /\ (other <> chatId -> (other ∈ users' <-> other ∈ users))
  /\ (NoDup users -> NoDup users').
Proof.
  unfold handleMessage, has.
  case_bool_decide as Hstart.
  - case_bool_decide as Hin; cbn [negb fst].
    + intuition auto.
    + split; [rewrite elem_of_add; tauto |].
      split; [| apply NoDup_add].
      intros Hne. rewrite elem_of_add. tauto.
  - case_bool_decide as Hstop.
    + rewrite Hstop in Hstart.
      case_bool_decide as Hin; cbn [fst].
      * split.
        { rewrite elem_of_remove, Hstop.
          split; [intros [Hne _]; congruence |].
          intros [Heq | [Hne _]]; [discriminate | congruence]. }
        split; [| apply NoDup_remove].
        intros Hne. rewrite elem_of_remove. tauto.
      * rewrite Hstop. intuition (auto; try congruence; try discriminate).
    + cbn [fst]. intuition auto.
Qed.

End TelegramFacts.

(** After one incoming message the sender is subscribed exactly when the
    message was a subscription command, or was not a cancellation and the
    sender was subscribed before; nobody else's subscription changes, and no
    chat is held twice. *)
Theorem handleMessage_membership (chatId other : Z) (message : string)
        (users : list Z) :
  let users' := (Telegram.handleMessage chatId message users).1 in
  (chatId ∈ users'
   <-> Telegram.toLowerCase message = "/start"%string
       \/ (Telegram.toLowerCase message <> "/stop"%string /\ chatId ∈ users))
  /\ (other <> chatId -> (other ∈ users' <-> other ∈ users))
  /\ (NoDup users -> NoDup users').
Proof. exact (TelegramFacts.handleMessage_elem chatId other message users). Qed.

(** A subscription followed by a cancellation, in any letter case, puts the
    subscriber set back exactly as it was for a chat that was not subscribed;
    and a second subscription command changes nothing and is answered
    "already subscribed". *)
Theorem subscribe_then_unsubscribe (chatId : Z) (m1 m2 : string) (users : list Z) :
  chatId ∉ users ->
  Telegram.toLowerCase m1 = "/start"%string ->
  Telegram.toLowerCase m2 = "/stop"%string ->
  let subscribed := (Telegram.handleMessage chatId m1 users).1 in
  Telegram.handleMessage chatId m1 users
  = (users ++ [chatId], [(chatId, Telegram.Subscribed)])
  /\ Telegram.handleMessage chatId m1 subscribed
     = (subscribed, [(chatId, Telegram.AlreadySubscribed)])
  /\ Telegram.handleMessage chatId m2 subscribed
     = (users, [(chatId, Telegram.Unsubscribed)]).
Proof.
  intros Hnot H1 H2.
  assert (Hin : chatId ∈ users ++ [chatId])
    by (rewrite elem_of_app, list_elem_of_singleton; auto).
  unfold Telegram.handleMessage, Telegram.has, Telegram.add, Telegram.has.
  rewrite H1, H2. cbn [bool_decide].
  rewrite (bool_decide_eq_true_2 ("/start"%string = "/start"%string)) by reflexivity.
  rewrite (bool_decide_eq_false_2 (chatId ∈ users)) by exact Hnot.
  cbn [negb fst].
  rewrite (bool_decide_eq_true_2 (chatId ∈ users ++ [chatId])) by exact Hin.
  cbn [negb].
  rewrite (bool_decide_eq_false_2 ("/stop"%string = "/start"%string)) by discriminate.
  rewrite (bool_decide_eq_true_2 ("/stop"%string = "/stop"%string)) by reflexivity.
  rewrite TelegramFacts.remove_add_fresh by exact Hnot.
  auto.
Qed.

Lemma subscribe_then_unsubscribe_witness :
  (5%Z ∉ [3%Z])
  /\ Telegram.toLowerCase "/Start" = "/start"%string
  /\ Telegram.toLowerCase "/STOP" = "/stop"%string
  /\ Telegram.handleMessage 5 "/STOP" (Telegram.handleMessage 5 "/Start" [3%Z]).1
     = ([3%Z], [(5%Z, Telegram.Unsubscribed)]).
Proof.
  assert (Hnot : 5%Z ∉ [3%Z]).
  { intros H. apply list_elem_of_singleton in H. discriminate. }
  split; [exact Hnot |]. split; [reflexivity |]. split; [reflexivity |].
  exact (proj2 (proj2 (subscribe_then_unsubscribe 5 "/Start" "/STOP" [3%Z]
                         Hnot eq_refl eq_refl))).
Defined.

Lemma handleMessages_from (chatId : Z) : forall (incoming : list (Z * string)) (users : list Z),
  NoDup users ->
  NoDup (Telegram.handleMessages incoming users)
  /\ (chatId ∈ Telegram.handleMessages incoming users
      <-> match Telegram.lastCommand chatId incoming with
          | Some b => b = true
          | None => chatId ∈ users
          end).
Proof.
  induction incoming as [|[c m] rest IH]; intros users Hnd;
    cbn [Telegram.handleMessages Telegram.lastCommand].
  - tauto.
  - destruct (TelegramFacts.handleMessage_elem c chatId m users) as (Hc & Ho & Hn).
    destruct (IH (Telegram.handleMessage c m users).1 (Hn Hnd)) as [Hnd' Hin].
    split; [exact Hnd' |]. rewrite Hin.
    destruct (Telegram.lastCommand chatId rest) as [b|]; [tauto |].
    case_bool_decide as Hsame.
    + subst c. rewrite Hc.
      case_bool_decide as Hstart; [tauto |].
      case_bool_decide as Hstop.
      * split; [intros [? | [? _]]; congruence | discriminate].
      * tauto.
    + apply Ho. congruence.
Qed.

(** Starting from no subscribers, after any sequence of incoming messages a
    chat is subscribed exactly when its last command was a subscription, and
    [sendSignalToSubscribers] then sends it the signal once -- never twice,
    however often it subscribed -- and sends nothing to anyone else. *)
Theorem subscribers_follow_last_command (incoming : list (Z * string)) (chatId : Z) :
  let users := Telegram.handleMessages incoming [] in
  (chatId ∈ users <-> Telegram.lastCommand chatId incoming = Some true)
  /\ count_occ Z.eq_dec (Telegram.sendSignalToSubscribers users) chatId
     = (if bool_decide (Telegram.lastCommand chatId incoming = Some true)
        then 1%nat else 0%nat).
Proof.
  intros users.
  destruct (handleMessages_from chatId incoming [] (NoDup_nil_2 (A:=Z))) as [Hnd Hin].
  fold users in Hnd, Hin.
  assert (Hiff : chatId ∈ users <-> Telegram.lastCommand chatId incoming = Some true).
  { rewrite Hin. destruct (Telegram.lastCommand chatId incoming) as [b|].
    - split; [intros ->; reflexivity | intros [= ->]; reflexivity].
    - split; [intros H; apply elem_of_nil in H; contradiction | discriminate]. }
  split; [exact Hiff |].
  unfold Telegram.sendSignalToSubscribers.
  case_bool_decide as Hlast.
  - apply Hiff in Hlast. apply list_elem_of_In in Hlast.
    apply NoDup_ListNoDup in Hnd.
    apply (proj1 (List.NoDup_count_occ' Z.eq_dec users) Hnd). exact Hlast.
  - apply count_occ_not_In. intros HIn. apply Hlast, Hiff, list_elem_of_In. exact HIn.
Qed.

(** ** The log files *)

Lemma initializeLogFiles_lookup (header : string) (fs : gmap string string)
      (path : string) :
  LogFiles.initializeLogFiles header fs !! path
  = match fs !! path with
    | Some content => Some content
    | None =>
        if bool_decide (path = LogFiles.RSI_LOG_FILE) then Some LogFiles.rsiHeader
        else if bool_decide (path = LogFiles.BUY_SIGNAL_LOG_FILE) then Some header
        else None
    end.
Proof.
  assert (Hne : LogFiles.RSI_LOG_FILE <> LogFiles.BUY_SIGNAL_LOG_FILE) by discriminate.
  unfold LogFiles.initializeLogFiles, LogFiles.existsSync, LogFiles.writeFileSync.
  cbv zeta.
  set (fs1 := if negb (bool_decide (is_Some (fs !! LogFiles.RSI_LOG_FILE)))
              then <[LogFiles.RSI_LOG_FILE := LogFiles.rsiHeader]> fs else fs).
  assert (H1 : fs1 !! path
               = match fs !! path with
                 | Some content => Some content
                 | None => if bool_decide (path = LogFiles.RSI_LOG_FILE)
                           then Some LogFiles.rsiHeader else None
                 end).
  { subst fs1. case_bool_decide as Hex; cbn [negb].
    - destruct (fs !! path) eqn:E; [reflexivity |].
      case_bool_decide as Hp; [| reflexivity].
      subst. rewrite E in Hex. destruct Hex as [? ?]. discriminate.
    - apply eq_None_not_Some in Hex.
      case_bool_decide as Hp.
      + subst. rewrite lookup_insert_eq, Hex. reflexivity.
      + rewrite lookup_insert_ne by congruence.
        destruct (fs !! path); reflexivity. }
  assert (Hbuy : is_Some (fs1 !! LogFiles.BUY_SIGNAL_LOG_FILE)
                 <-> is_Some (fs !! LogFiles.BUY_SIGNAL_LOG_FILE)).
  { subst fs1. case_bool_decide; cbn [negb]; [reflexivity |].
    rewrite lookup_insert_ne by exact Hne. reflexivity. }
  destruct (decide (is_Some (fs1 !! LogFiles.BUY_SIGNAL_LOG_FILE))) as [Hex|Hex];
    [rewrite (bool_decide_eq_true_2 _ Hex) | rewrite (bool_decide_eq_false_2 _ Hex)];
    cbn [negb].
  - rewrite H1. destruct (fs !! path) eqn:E; [reflexivity |].
    case_bool_decide as Hp; [reflexivity |].
    case_bool_decide as Hp'; [| reflexivity].
    subst. apply Hbuy in Hex. rewrite E in Hex. destruct Hex as [? ?]. discriminate.
  - assert (Hnone : fs !! LogFiles.BUY_SIGNAL_LOG_FILE = None).
    { apply eq_None_not_Some. rewrite <- Hbuy. exact Hex. }
    destruct (decide (path = LogFiles.BUY_SIGNAL_LOG_FILE)) as [->|Hp'].
    + rewrite lookup_insert_eq, Hnone.
      rewrite bool_decide_eq_false_2 by congruence.
      rewrite bool_decide_eq_true_2 by reflexivity. reflexivity.
    + rewrite lookup_insert_ne by congruence. rewrite H1.
      destruct (fs !! path); [reflexivity |].
      case_bool_decide; [reflexivity |].
      rewrite bool_decide_eq_false_2 by exact Hp'. reflexivity.
Qed.

(** [initializeLogFiles] never replaces a file that is already there (an
    existing log keeps its rows), creates each missing log with its header,
    touches no other path, and running it again changes nothing. *)
Theorem initializeLogFiles_keeps_logs (header : string) (fs : gmap string string)
        (path : string) :
  let fs' := LogFiles.initializeLogFiles header fs in
  (forall content, fs !! path = Some content -> fs' !! path = Some content)
  /\ (fs !! path = None ->
      fs' !! path
      = if bool_decide (path = LogFiles.RSI_LOG_FILE) then Some LogFiles.rsiHeader
        else if bool_decide (path = LogFiles.BUY_SIGNAL_LOG_FILE) then Some header
        else None)
  /\ LogFiles.initializeLogFiles header fs' = fs'.
Proof.
  intros fs'. subst fs'. split; [| split].
  - intros content Hc. rewrite initializeLogFiles_lookup, Hc. reflexivity.
  - intros Hnone. rewrite initializeLogFiles_lookup, Hnone. reflexivity.
  - apply map_eq. intros p.
    rewrite (initializeLogFiles_lookup header (LogFiles.initializeLogFiles header fs) p).
    rewrite (initializeLogFiles_lookup header fs p).
    destruct (fs !! p); [reflexivity |].
    repeat case_bool_decide; reflexivity.
Qed.
